(** * Naive Bayes classifiers (compute-io/naive-bayes): a shallow embedding

    The development follows the source files of the library:
    [lib/multinomial.js] (the multinomial model), [lib/gaussian.js] (the
    Gaussian model), [lib/score.js] (mean accuracy) and [lib/index.js]
    (the validating entry points).

    Numbers.  A JavaScript number is modelled by [num]: a real number or
    one of the three special values NaN, +Infinity and -Infinity.  The
    arithmetic on finite values is the exact arithmetic of the reals, so
    rounding, overflow to infinity and the sign of zero are idealised
    away; the special values follow IEEE 754 ([0/0] is NaN, [ln 0] is
    -Infinity, every comparison with NaN is false, ...). *)

From Stdlib Require Import Reals Lra Lia ZArith.
From stdpp Require Import base decidable option list strings gmap pretty.

(** ** Numbers *)

#[global] Instance Rlt_decision (a b : R) : Decision (a < b)%R := Rlt_dec a b.
#[global] Instance Rle_decision (a b : R) : Decision (a <= b)%R := Rle_dec a b.
#[global] Instance Req_decision : EqDecision R := Req_dec_T.

Inductive num : Type :=
| NaN
| PInf
| NInf
| Fin (r : R).

Inductive sgn : Type := Neg | Zero | Pos.

Definition Rsgn (r : R) : sgn :=
  if decide (0 < r)%R then Pos else if decide (r < 0)%R then Neg else Zero.

Definition sgn_opp (s : sgn) : sgn :=
  match s with Neg => Pos | Zero => Zero | Pos => Neg end.

(** An infinity multiplied by a finite number of sign [s]. *)
Definition inf_of (s : sgn) : num :=
  match s with Pos => PInf | Neg => NInf | Zero => NaN end.

Definition of_nat (k : nat) : num := Fin (INR k).
Definition of_Z (z : Z) : num := Fin (IZR z).

(** [x + y] *)
Definition nadd (x y : num) : num :=
  match x, y with
  | NaN, _ | _, NaN => NaN
  | PInf, NInf | NInf, PInf => NaN
  | PInf, _ | _, PInf => PInf
  | NInf, _ | _, NInf => NInf
  | Fin a, Fin b => Fin (a + b)
  end.

(** [x - y] *)
Definition nsub (x y : num) : num :=
  match x, y with
  | NaN, _ | _, NaN => NaN
  | PInf, PInf | NInf, NInf => NaN
  | PInf, _ | _, NInf => PInf
  | NInf, _ | _, PInf => NInf
  | Fin a, Fin b => Fin (a - b)
  end.

(** [x * y] *)
Definition nmul (x y : num) : num :=
  match x, y with
  | NaN, _ | _, NaN => NaN
  | Fin a, Fin b => Fin (a * b)
  | PInf, PInf | NInf, NInf => PInf
  | PInf, NInf | NInf, PInf => NInf
  | PInf, Fin b | Fin b, PInf => inf_of (Rsgn b)
  | NInf, Fin b | Fin b, NInf => inf_of (sgn_opp (Rsgn b))
  end.

(** [x / y]; a zero divisor is taken to be +0. *)
Definition ndiv (x y : num) : num :=
  match x, y with
  | NaN, _ | _, NaN => NaN
  | (PInf | NInf), (PInf | NInf) => NaN
  | Fin _, (PInf | NInf) => Fin 0
  | PInf, Fin b => if decide (b < 0)%R then NInf else PInf
  | NInf, Fin b => if decide (b < 0)%R then PInf else NInf
  | Fin a, Fin b => if decide (b = 0%R) then inf_of (Rsgn a) else Fin (a / b)
  end.

(** [x > y] *)
Definition ngt (x y : num) : bool :=
  match x, y with
  | Fin a, Fin b => bool_decide (b < a)%R
  | PInf, (NInf | Fin _) => true
  | Fin _, NInf => true
  | _, _ => false
  end.

(** The truth value of a number in a condition: NaN and zero are false. *)
Definition truthy (x : num) : bool :=
  match x with
  | NaN => false
  | Fin r => bool_decide (r <> 0%R)
  | _ => true
  end.

(** [Math.log] *)
Definition Math_log (x : num) : num :=
  match x with
  | NaN | NInf => NaN
  | PInf => PInf
  | Fin r => if decide (0 < r)%R then Fin (ln r)
             else if decide (r = 0%R) then NInf else NaN
  end.

(** [Math.exp] *)
Definition Math_exp (x : num) : num :=
  match x with
  | NaN => NaN
  | PInf => PInf
  | NInf => Fin 0
  | Fin r => Fin (exp r)
  end.

(** [Math.sqrt] *)
Definition Math_sqrt (x : num) : num :=
  match x with
  | NaN | NInf => NaN
  | PInf => PInf
  | Fin r => if decide (r < 0)%R then NaN else Fin (sqrt r)
  end.

Definition is_finite (x : num) : bool :=
  match x with Fin _ => true | _ => false end.

(** Storing a number into an [Int32Array] applies ToInt32: the special
    values become 0, a finite value is truncated towards zero and wrapped
    into the signed 32-bit range. *)
Definition wrap32 (z : Z) : Z := ((z + 2 ^ 31) mod 2 ^ 32 - 2 ^ 31)%Z.

Definition Rtrunc (r : R) : Z :=
  if decide (0 <= r)%R then Zfloor r else (- Zfloor (- r))%Z.

Definition ToInt32 (x : num) : Z :=
  match x with
  | Fin r => wrap32 (Rtrunc r)
  | _ => 0%Z
  end.

(** ** Control flow, arrays and errors *)

(** [for ( i = 0; i < n; i++ ) body], threading the variables the body
    assigns as a state [s]. *)
Definition for_loop {S : Type} (n : nat) (body : nat -> S -> S) (s : S) : S :=
  fold_left (fun st i => body i st) (seq 0 n) s.

(** [arr[ i ] = v] on a JavaScript array: an index past the end extends
    the array, the skipped positions being [hole]s. *)
Definition arr_set {A : Type} (hole : A) (arr : list A) (i : nat) (v : A) : list A :=
  if decide (i < length arr) then <[i:=v]> arr
  else arr ++ replicate (i - length arr) hole ++ [v].

(** [new Array( len )].  With a number the array has [len] holes; with
    any other argument, [undefined] included, the argument becomes the
    only element of an array of length 1.  [None] is [undefined]. *)
Definition new_Array {A : Type} (len : option nat) : list (option A) :=
  match len with
  | Some k => replicate k None
  | None => [None]
  end.

(** Reading an element of a numeric array: out of range the result is
    [undefined], which every numeric use below treats as NaN (it is
    false in a condition and yields NaN in arithmetic). *)
Definition vec_get (v : list num) (j : nat) : num := default NaN (v !! j).

(** Every error the library raises is a [TypeError]: the validation
    errors of the entry points carry their message, and reading a
    property of [undefined] is the engine's own [TypeError]. *)
Inductive error : Type :=
| TypeError (msg : string).

Inductive result (A : Type) : Type :=
| Ok (a : A)
| Throw (e : error).
Arguments Ok {A} a.
Arguments Throw {A} e.

#[global] Instance result_bind : MBind result := fun A B k r =>
  match r with
  | Ok a => k a
  | Throw e => Throw e
  end.

(** A loop whose body may throw. *)
Fixpoint for_each {S : Type} (l : list nat) (body : nat -> S -> result S) (s : S)
  : result S :=
  match l with
  | [] => Ok s
  | i :: l' => s' ← body i s; for_each l' body s'
  end.

(** ** Class labels *)

(** A class label is a number (an integer class code) or a string. *)
Inductive label : Type :=
| LNum (z : Z)
| LStr (s : string).

#[global] Instance label_eq_dec : EqDecision label.
Proof. solve_decision. Defined.

(** [a === b] on labels and [undefined] ([None]). *)
Definition strict_eq (a b : option label) : bool := bool_decide (a = b).

(** The property key under which an object stores [obj[ c ]]. *)
Definition key (c : option label) : string :=
  match c with
  | None => "undefined"
  | Some (LNum z) => pretty z
  | Some (LStr s) => s
  end.

(** [obj[ c ]] read as a number; a missing property is [undefined]. *)
Definition prop_get (obj : gmap string num) (c : option label) : num :=
  default NaN (obj !! key c).

(** ** The matrix and vector collaborators

    The numeric packages the library requires are not part of the
    repository; they are modelled after the interface the classifier
    relies on. *)

(** [dstructs-matrix]: a dense matrix, row by row. *)
Record matrix : Type := Matrix {
  shape0 : nat;
  shape1 : nat;
  rows : list (list num)
}.

(** [matrix( [ r, c ] )]: the zero matrix. *)
Definition matrix_zeros (r c : nat) : matrix :=
  Matrix r c (replicate r (replicate c (Fin 0))).

(** Row [i]; a row outside the matrix has no entry. *)
Definition mat_row (m : matrix) (i : nat) : list num := default [] (rows m !! i).

(** [m.get( i, j )]; an index outside the matrix reads as [undefined]. *)
Definition mat_get (m : matrix) (i j : nat) : num := vec_get (mat_row m i) j.

(** [m.set( i, j, v )] *)
Definition mat_set (m : matrix) (i j : nat) (v : num) : matrix :=
  Matrix (shape0 m) (shape1 m) (alter (fun r => <[j:=v]> r) i (rows m)).

(** [m.mget( ids, [ j ] )]: the entries of column [j] in the rows [ids]. *)
Definition mat_mget_col (m : matrix) (ids : list nat) (j : nat) : matrix :=
  Matrix (length ids) 1 (map (fun r => [mat_get m r j]) ids).

(** [m.mget( ids, null )]: the rows [ids], all columns. *)
Definition mat_mget_rows (m : matrix) (ids : list nat) : matrix :=
  Matrix (length ids) (shape1 m) (map (mat_row m) ids).

(** [m.data] *)
Definition mat_data (m : matrix) : list num := concat (rows m).

(** [compute-to-matrix]: an array of arrays becomes a matrix with as
    many columns as the first row has elements. *)
Definition toMatrix (r : list (list num)) : matrix :=
  let ncol := length (hd [] r) in
  Matrix (length r) ncol (map (resize ncol NaN) r).

(** [compute-sum] *)
Definition compute_sum (l : list num) : num := fold_left nadd l (Fin 0).

(** [compute-max]; on an empty array the result is [null], which the
    arithmetic that follows reads as 0. *)
Definition compute_max (l : list num) : num :=
  match l with
  | [] => Fin 0
  | x :: t => fold_left (fun m v => if ngt v m then v else m) t x
  end.

(** [compute-subtract], an array minus a scalar *)
Definition compute_subtract (l : list num) (a : num) : list num :=
  map (fun v => nsub v a) l.

(** [compute-exp] *)
Definition compute_exp (l : list num) : list num := map Math_exp l.

(** [compute-mean] *)
Definition compute_mean (l : list num) : num :=
  ndiv (compute_sum l) (of_nat (length l)).

(** [compute-stdev]: the sample standard deviation, dividing by the
    number of values minus one. *)
Definition compute_stdev (l : list num) : num :=
  let mu := compute_mean l in
  let ss := compute_sum (map (fun v => nmul (nsub v mu) (nsub v mu)) l) in
  Math_sqrt (ndiv ss (nsub (of_nat (length l)) (Fin 1))).

(** [compute-unique]: the distinct labels, in order of first occurrence. *)
Fixpoint unique_from (seen : list label) (y : list label) : list label :=
  match y with
  | [] => []
  | c :: y' =>
      if decide (c ∈ seen) then unique_from seen y'
      else c :: unique_from (c :: seen) y'
  end.

Definition compute_unique (y : list label) : list label := unique_from [] y.

(** ** Arguments of the public functions *)

(** What a caller passes as [x]: an array of numbers, an array of arrays
    of numbers, a matrix, or a number (which is neither array-like nor
    matrix-like).  [InRows []] and [InVec []] both stand for the empty
    array. *)
Inductive input : Type :=
| InVec (v : list num)
| InRows (r : list (list num))
| InMat (m : matrix)
| InNum (x : num).

(** What a caller passes as [y]: an array of labels, or a number. *)
Inductive labels : Type :=
| YArr (ys : list label)
| YNum (x : num).

(** [validate.io-array-array]: a non-empty array of arrays. *)
Definition isArrayArray (x : input) : bool :=
  match x with
  | InRows (_ :: _) => true
  | _ => false
  end.

(** [validate.io-matrix-like] *)
Definition isMatrixLike (x : input) : bool :=
  match x with
  | InMat _ => true
  | _ => false
  end.

(** [validate.io-array-like]: anything with a valid [length]; a matrix
    has one. *)
Definition isArrayLike (x : input) : bool :=
  match x with
  | InNum _ => false
  | _ => true
  end.

Definition isArrayLike_labels (y : labels) : bool :=
  match y with
  | YArr _ => true
  | YNum _ => false
  end.

(** The elements [x[ 0 ]], [x[ 1 ]], ... that [predictOne] reads from a
    value that reached it: a number and the empty array have none. *)
Definition as_vector (x : input) : list num :=
  match x with
  | InVec v => v
  | _ => []
  end.

(** [if ( isArrayArray( x ) ) { x = toMatrix( x ); }] *)
Definition convert (x : input) : input :=
  match x with
  | InRows r => if isArrayArray x then InMat (toMatrix r) else x
  | _ => x
  end.

(** ** Code shared, copy for copy, by the two models *)

(** What [predict] returns: one label for a single observation, an
    array of labels for a matrix.  [None] is [undefined]. *)
Inductive prediction : Type :=
| POne (c : option label)
| PMany (cs : list (option label)).

(** What [predictProbs] returns. *)
Inductive probabilities : Type :=
| QOne (ps : list num)
| QMany (pss : list (option (list num))).

(** [logLik = new Array( k ); for ( i = 0; i < k; i++ ) { logLik[ i ] = f( i ); }] *)
Definition fill_array (k : nat) (f : nat -> num) : list num :=
  for_loop k (fun i logLik => arr_set NaN logLik i (f i)) (replicate k NaN).

(** The scan for the most likely class (multinomial.js, lines 138-147
    and 185-193; gaussian.js, lines 132-141 and 174-182):
<<
    max = logLik[ 0 ];
    argmax = this.classes[ 0 ];
    for ( i = 0; i < nClasses; i++ ) {
        val = logLik[ i ];
        if ( val > max ) { max = val; argmax = this.classes[ i ]; }
    }
>> *)
Definition argmax_step (classes : list label) (logLik : list num)
    (i : nat) (st : num * option label) : num * option label :=
  let val := vec_get logLik i in
  if ngt val (fst st) then (val, classes !! i) else st.

Definition argmax_scan (classes : list label) (nClasses : nat) (logLik : list num)
  : option label :=
  let max := vec_get logLik 0 in
  let argmax := classes !! 0 in
  snd (for_loop nClasses (argmax_step classes logLik) (max, argmax)).

(** The normalisation of the log-likelihoods (multinomial.js, lines
    235-238 and 252-255; gaussian.js, lines 217-220 and 229-232):
<<
    a = max( logLik );
    denom = a + ln( sum( exp( subtract( logLik, a ) ) ) );
    logLik = subtract( logLik, denom );
    return exp( logLik );
>> *)
Definition normalize (logLik : list num) : list num :=
  let a := compute_max logLik in
  let denom := nadd a (Math_log (compute_sum (compute_exp (compute_subtract logLik a)))) in
  let logLik := compute_subtract logLik denom in
  compute_exp logLik.

(** The rows [ids] whose label is [c] (the loop over [j < this.n] of
    both fitting methods). *)
Definition class_ids (n : nat) (y : list label) (c : option label) : list nat :=
  for_loop n (fun j ids => if strict_eq (y !! j) c then ids ++ [j] else ids) [].

(** ** The multinomial model (lib/multinomial.js) *)

Module Multinomial.

Record model : Type := Model {
  n : nat;
  p : nat;
  classes : list label;
  nclass : nat;
  alpha : num;
  prior : gmap string num;
  cprob : matrix
}.

(** [counts = new Int32Array( p ); for ( j ... ) counts[ j ] = sum( x.mget( ids, [j] ) )] *)
Definition class_counts (this : model) (x : matrix) (ids : list nat) : list Z :=
  for_loop this.(p)
    (fun j counts => <[j := ToInt32 (compute_sum (mat_data (mat_mget_col x ids j)))]> counts)
    (replicate this.(p) 0%Z).

(** [counts[ j ]] read back as a number. *)
Definition count_get (counts : list Z) (j : nat) : num := of_Z (default 0%Z (counts !! j)).

(** One turn of the loop over the classes of [fitMultinomial]. *)
Definition fit_class (this : model) (x : matrix) (y : list label) (i : nat)
    (st : gmap string num * matrix) : gmap string num * matrix :=
  let c := this.(classes) !! i in
  let ids := class_ids this.(n) y c in
  let nc := length ids in
  let prior := <[key c := Math_log (ndiv (of_nat nc) (of_nat this.(n)))]> (fst st) in
  let counts := class_counts this x ids in
  let totalCount := compute_sum (map of_Z counts) in
  let cprob :=
    for_loop this.(p)
      (fun j cprob =>
         let val := nsub (Math_log (nadd (count_get counts j) this.(alpha)))
                         (Math_log (nadd totalCount (nmul (of_nat this.(p)) this.(alpha)))) in
         mat_set cprob j i val)
      (snd st) in
  (prior, cprob).

Definition fitMultinomial (this : model) (x : matrix) (y : list label) : model :=
  let prior : gmap string num := ∅ in
  let cprob := matrix_zeros this.(p) this.(nclass) in
  let st := for_loop this.(nclass) (fit_class this x y) (prior, cprob) in
  Model this.(n) this.(p) this.(classes) this.(nclass) this.(alpha) (fst st) (snd st).

(** The constructor [MultinomialFit( x, y, alpha )]. *)
Definition MultinomialFit (x : matrix) (y : list label) (alpha : num) : model :=
  let classes := compute_unique y in
  fitMultinomial
    (Model (shape0 x) (shape1 x) classes (length classes) alpha ∅ (matrix_zeros 0 0)) x y.

(** The log-likelihood loop with the test on the feature value
    (lines 107-111, 132-136, 179-183 and 229-233); [get j] is [x[ j ]]
    or [x.get( i, j )]:
<<
    res = this.prior[ c ];
    for ( j = 0; j < this.p; j++ ) {
        val = x[ j ] ? x[ j ] * this.cprob.get( j, i ) : 0;
        res += val;
    }
>> *)
Definition loglik (this : model) (get : nat -> num) (i : nat) : num :=
  let c := this.(classes) !! i in
  for_loop this.(p)
    (fun j res =>
       let val := if truthy (get j) then nmul (get j) (mat_get this.(cprob) j i)
                  else Fin 0 in
       nadd res val)
    (prop_get this.(prior) c).

(** The same loop as the single-observation case of [predictProbs] has
    it (lines 245-250): [val = x[ k ] * this.cprob.get( k, j )]. *)
Definition loglik_untested (this : model) (get : nat -> num) (i : nat) : num :=
  let c := this.(classes) !! i in
  for_loop this.(p)
    (fun j res => let val := nmul (get j) (mat_get this.(cprob) j i) in nadd res val)
    (prop_get this.(prior) c).

Definition calcMultinomProb (this : model) (x : list num) (i : nat) : num :=
  loglik this (vec_get x) i.

Definition predictOne (this : model) (x : list num) : option label :=
  let nClasses := length this.(classes) in
  let logLik := fill_array nClasses (loglik this (vec_get x)) in
  argmax_scan this.(classes) nClasses logLik.

Definition predict (this : model) (x : input) : prediction :=
  let nClasses := length this.(classes) in
  match convert x with
  | InMat m =>
      (* Case A: isMatrixLike( x ) *)
      let nrow := shape0 m in
      PMany (for_loop nrow
               (fun i ret =>
                  let logLik := fill_array nClasses (loglik this (mat_get m i)) in
                  arr_set None ret i (argmax_scan this.(classes) nClasses logLik))
               [])
  | x' => POne (predictOne this (as_vector x'))
  end.

Definition predictProbs (this : model) (x : input) : probabilities :=
  match convert x with
  | InMat m =>
      (* [nrow] is still undefined when the array is allocated *)
      let nrow : option nat := None in
      let ret := new_Array nrow in
      let nrow := shape0 m in
      QMany (for_loop nrow
               (fun i ret =>
                  let logLik := fill_array this.(nclass) (loglik this (mat_get m i)) in
                  arr_set None ret i (Some (normalize logLik)))
               ret)
  | x' =>
      let logLik := fill_array this.(nclass) (loglik_untested this (vec_get (as_vector x'))) in
      QOne (normalize logLik)
  end.

End Multinomial.

(** ** The Gaussian model (lib/gaussian.js) *)

Module Gaussian.

Record model : Type := Model {
  n : nat;
  p : nat;
  classes : list label;
  nclass : nat;
  prior : gmap string num;
  mu : matrix;
  sigma : matrix
}.

(** One turn of the loop over the classes of [fitGaussian]. *)
Definition fit_class (this : model) (x : matrix) (y : list label) (i : nat)
    (st : gmap string num * (matrix * matrix)) : gmap string num * (matrix * matrix) :=
  let c := this.(classes) !! i in
  let ids := class_ids this.(n) y c in
  let nc := length ids in
  let prior := <[key c := Math_log (ndiv (of_nat nc) (of_nat this.(n)))]> (fst st) in
  let ms :=
    for_loop this.(p)
      (fun j ms =>
         let mu := compute_mean (mat_data (mat_mget_col x ids j)) in
         let sigma := compute_stdev (mat_data (mat_mget_col x ids j)) in
         (mat_set (fst ms) j i mu, mat_set (snd ms) j i sigma))
      (snd st) in
  (prior, ms).

Definition fitGaussian (this : model) (x : matrix) (y : list label) : model :=
  let prior : gmap string num := ∅ in
  let mu := matrix_zeros this.(p) this.(nclass) in
  let sigma := matrix_zeros this.(p) this.(nclass) in
  let st := for_loop this.(nclass) (fit_class this x y) (prior, (mu, sigma)) in
  Model this.(n) this.(p) this.(classes) this.(nclass) (fst st) (fst (snd st)) (snd (snd st)).

(** The constructor [GaussianFit( x, y )]. *)
Definition GaussianFit (x : matrix) (y : list label) : model :=
  let classes := compute_unique y in
  fitGaussian
    (Model (shape0 x) (shape1 x) classes (length classes) ∅
       (matrix_zeros 0 0) (matrix_zeros 0 0)) x y.

(** [-0.5 * ln( 2 * PI ) * sigma - 0.5 * ( x[ j ] - mu ) / sigma] *)
Definition gauss_term (xj m s : num) : num :=
  nsub (nmul (nmul (Fin (- 0.5)) (Math_log (nmul (Fin 2) (Fin PI)))) s)
       (ndiv (nmul (Fin 0.5) (nsub xj m)) s).

Definition calcGaussianProb (this : model) (x : list num) (i : nat) : num :=
  let c := this.(classes) !! i in
  for_loop this.(p)
    (fun j res =>
       let val := gauss_term (vec_get x j) (mat_get this.(mu) j i)
                    (mat_get this.(sigma) j i) in
       nadd res val)
    (prop_get this.(prior) c).

Definition predictOne (this : model) (x : list num) : option label :=
  let nClasses := length this.(classes) in
  let logLik := fill_array nClasses (calcGaussianProb this x) in
  argmax_scan this.(classes) nClasses logLik.

Definition predict (this : model) (x : input) : prediction :=
  let nClasses := length this.(classes) in
  match convert x with
  | InMat m =>
      let nrow := shape0 m in
      PMany (for_loop nrow
               (fun i ret =>
                  let logLik :=
                    fill_array nClasses
                      (calcGaussianProb this (mat_data (mat_mget_rows m [i]))) in
                  arr_set None ret i (argmax_scan this.(classes) nClasses logLik))
               [])
  | x' => POne (predictOne this (as_vector x'))
  end.

Definition predictProbs (this : model) (x : input) : probabilities :=
  match convert x with
  | InMat m =>
      let nrow : option nat := None in
      let ret := new_Array nrow in
      let nrow := shape0 m in
      QMany (for_loop nrow
               (fun i ret =>
                  let logLik :=
                    fill_array this.(nclass)
                      (calcGaussianProb this (mat_data (mat_mget_rows m [i]))) in
                  arr_set None ret i (Some (normalize logLik)))
               ret)
  | x' =>
      let logLik := fill_array this.(nclass) (calcGaussianProb this (as_vector x')) in
      QOne (normalize logLik)
  end.

End Gaussian.

(** ** Mean accuracy (lib/score.js) *)

(** [s[ i ]] on a string: the one-character string at position [i]. *)
Definition char_at (s : string) (i : nat) : option label :=
  (fun a => LStr (String a EmptyString)) <$> String.get i s.

(** [yhat[ i ]] on what [predict] returned.  On an array it is the
    element or [undefined]; on a number it is [undefined]; on a string
    it is a character; on [undefined] the engine throws. *)
Definition pred_index (yhat : prediction) (i : nat) : result (option label) :=
  match yhat with
  | PMany cs => Ok (mjoin (cs !! i))
  | POne None => Throw (TypeError "Cannot read properties of undefined")
  | POne (Some (LNum _)) => Ok None
  | POne (Some (LStr s)) => Ok (char_at s i)
  end.

Definition labels_of (y : labels) : list label :=
  match y with
  | YArr ys => ys
  | YNum _ => []
  end.

(** The loop body: [if ( yhat[ i ] === y[ i ] ) { accuracy += 1; }] *)
Definition score_step (yhat : prediction) (ys : list label) (i : nat) (accuracy : num)
  : result num :=
  yi ← pred_index yhat i;
  Ok (if strict_eq yi (ys !! i) then nadd accuracy (Fin 1) else accuracy).

(** [score] is a method of both models; [predict] is [this.predict]. *)
Definition score (predict : input -> prediction) (x : input) (y : labels) : result num :=
  if negb (isArrayLike x) then
    Throw (TypeError "invalid argument. First argument must be a matrix or array of test data.")
  else if negb (isArrayLike_labels y) then
    Throw (TypeError "invalid argument. Second argument must be an array of labels for the test data.")
  else
    let yhat := predict x in
    let n := length (labels_of y) in
    accuracy ← for_each (seq 0 n) (score_step yhat (labels_of y)) (Fin 0);
    Ok (ndiv accuracy (of_nat n)).

Definition Multinomial_score (this : Multinomial.model) : input -> labels -> result num :=
  score (Multinomial.predict this).

Definition Gaussian_score (this : Gaussian.model) : input -> labels -> result num :=
  score (Gaussian.predict this).

(** ** The entry points (lib/index.js) *)

(** The values an option may hold.  [JObject] stands for any object,
    array or function. *)
Inductive jsval : Type :=
| JUndefined
| JNull
| JBool (b : bool)
| JNumber (x : num)
| JString (s : string)
| JObject.

(** [validate.io-number-primitive] *)
Definition isNumber (v : jsval) : bool :=
  match v with
  | JNumber NaN => false
  | JNumber _ => true
  | _ => false
  end.

(** The truth value of an option value, as [||] tests it. *)
Definition js_truthy (v : jsval) : bool :=
  match v with
  | JUndefined | JNull => false
  | JBool b => b
  | JNumber x => truthy x
  | JString s => bool_decide (s <> "")
  | JObject => true
  end.

(** The number a smoothing constant stands for where the fit computes
    with it, in [counts[ j ] + this.alpha] and [this.p * this.alpha]: a
    number is itself, a boolean counts as 1 or 0, [null] as 0 and
    [undefined] as NaN.  A string, an array or an object stands for no
    number there: with it the [+] concatenates text instead of adding
    (a count of 3 and the constant ['2'] give ['32']). *)
Definition alpha_number (v : jsval) : option num :=
  match v with
  | JUndefined => Some NaN
  | JNull => Some (Fin 0)
  | JBool b => Some (if b then Fin 1 else Fin 0)
  | JNumber x => Some x
  | JString _ | JObject => None
  end.

(** What [new MultinomialFit( x, y, alpha )] yields for the value
    [alpha] of an option.  When [alpha] stands for a number the model is
    the one [Multinomial.MultinomialFit] fits with that number.  With a
    string, an array or an object the constructor is entered with that
    very value; what it then computes on text lies outside the numbers
    modelled here, and the call is recorded as it is made. *)
Inductive fitted : Type :=
| Fitted (m : Multinomial.model)
| FittedWithText (x : matrix) (y : list label) (alpha : jsval).

Definition new_MultinomialFit (x : matrix) (y : list label) (alpha : jsval) : fitted :=
  match alpha_number alpha with
  | Some a => Fitted (Multinomial.MultinomialFit x y a)
  | None => FittedWithText x y alpha
  end.

(** [opts.name]: reading a property of [undefined] throws. *)
Definition opts_get (opts : option (gmap string jsval)) (name : string) : result jsval :=
  match opts with
  | None => Throw (TypeError "Cannot read properties of undefined")
  | Some o => Ok (default JUndefined (o !! name))
  end.

(** [opts.hasOwnProperty( name )] *)
Definition opts_has (opts : option (gmap string jsval)) (name : string) : result bool :=
  match opts with
  | None => Throw (TypeError "Cannot read properties of undefined")
  | Some o => Ok (bool_decide (is_Some (o !! name)))
  end.

(** [arguments > k].  The [arguments] object is compared as a number:
    its primitive value is the string ["[object Arguments]"], whose
    numeric value is NaN, whatever the number [argc] of arguments. *)
Definition arguments_gt (argc : nat) (k : num) : bool := ngt NaN k.

(** The validation of [x] shared by the two entry points. *)
Definition check_design (x : input) : result matrix :=
  if isArrayArray x then
    match convert x with
    | InMat m => Ok m
    | _ => Throw (TypeError "invalid input argument. The first argument must be a matrix or an array-of-arrays.")
    end
  else
    match x with
    | InMat m => Ok m
    | _ => Throw (TypeError "invalid input argument. The first argument must be a matrix or an array-of-arrays.")
    end.

Definition check_labels (y : labels) : result (list label) :=
  match y with
  | YArr ys => Ok ys
  | YNum _ => Throw (TypeError "invalid input argument. The second argument must be array-like.")
  end.

(** [multinomNB( x, y[, opts] )]; [opts = None] is a call with two
    arguments. *)
Definition multinomNB (x : input) (y : labels) (opts : option (gmap string jsval))
  : result fitted :=
  let argc := match opts with Some _ => 3 | None => 2 end in
  m ← check_design x;
  ys ← check_labels y;
  _ ← (if arguments_gt argc (Fin 2) then
         has ← opts_has opts "alpha";
         if (has : bool) then
           a ← opts_get opts "alpha";
           if negb (isNumber a) then
             Throw (TypeError "invalid option. Laplace smoothing option must be a number primitive.")
           else Ok tt
         else Ok tt
       else Ok tt);
  a ← opts_get opts "alpha";
  let alpha := if js_truthy a then a else JNumber (Fin 1) in
  let fit := new_MultinomialFit m ys alpha in
  Ok fit.

(** [gaussianNB( x, y )] *)
Definition gaussianNB (x : input) (y : labels) : result Gaussian.model :=
  m ← check_design x;
  ys ← check_labels y;
  Ok (Gaussian.GaussianFit m ys).

(** * Vocabulary of the statements

    The definitions below are not part of the program: they name what
    the properties proved afterwards are about. *)

(** The design matrix the constructor receives from a valid [x]. *)
Definition design_of (x : input) : option matrix :=
  match x with
  | InRows (r :: rs) => Some (toMatrix (r :: rs))
  | InMat m => Some m
  | _ => None
  end.

(** The prediction of a matrix: one label per row,
    in row order, each the prediction of that row as a vector. *)
Definition row_predictions (predictOne : list num -> option label) (m : matrix)
  : list (option label) :=
  map (fun i => predictOne (mat_row m i)) (seq 0 (shape0 m)).

(** The dual-arity contract of a [predict] method with respect to its
    [predictOne]. *)
Definition dual_arity (predict : input -> prediction)
    (predictOne : list num -> option label) : Prop :=
  (forall m cs, predict (InMat m) = PMany cs ->
     length cs = shape0 m /\
     forall i, i < shape0 m -> cs !! i = Some (predictOne (mat_row m i))) /\
  (forall m, exists cs, predict (InMat m) = PMany cs) /\
  (forall r rs, predict (InRows (r :: rs)) = predict (InMat (toMatrix (r :: rs)))) /\
  (forall v, predict (InVec v) = POne (predictOne v)) /\
  (forall m, shape0 m = 1 ->
     exists c, predict (InMat m) = PMany [c] /\
               predict (InVec (mat_row m 0)) = POne c).

(** [k] is the first index, among the [nclass] classes, whose
    log-likelihood [L k] no other exceeds: no [L i] is greater than [L k],
    and no earlier index has the same value. *)
Definition first_argmax (L : nat -> num) (nclass k : nat) : Prop :=
  k < nclass /\
  (forall i, i < nclass -> ngt (L i) (L k) = false) /\
  (forall i, i < k -> L i <> L k).

(** The index at which the scan stops, said in full.  When the first
    log-likelihood is NaN no comparison with the running maximum
    succeeds and the first class stays.  Otherwise a NaN is never
    selected, and [k] is the first index to carry the greatest of the
    log-likelihoods that are numbers: none is greater than [L k], and
    [L k] is greater than every number before it. *)
Definition scan_result (L : nat -> num) (nclass k : nat) : Prop :=
  k < nclass /\
  (L 0 = NaN -> k = 0) /\
  (L 0 <> NaN ->
   L k <> NaN /\
   (forall i, i < nclass -> ngt (L i) (L k) = false) /\
   (forall i, i < k -> L i <> NaN -> ngt (L k) (L i) = true)).

(** The number of indices below [k] at which [f] holds. *)
Fixpoint count_upto (f : nat -> bool) (k : nat) : nat :=
  match k with
  | 0 => 0
  | S k' => count_upto f k' + (if f k' then 1 else 0)
  end.

(** [yhat[ i ] === y[ i ]] *)
Definition agree (yhat : prediction) (ys : list label) (i : nat) : bool :=
  match pred_index yhat i with
  | Ok c => strict_eq c (ys !! i)
  | Throw _ => false
  end.

(** The count of indices [k] of [y] where [yhat[ k ]] equals [y[ k ]]. *)
Definition matches (yhat : prediction) (ys : list label) : nat :=
  count_upto (agree yhat ys) (length ys).

(** A number of the interval [[0,1]]. *)
Definition in_unit_interval (v : num) : Prop :=
  exists r : R, v = Fin r /\ (0 <= r <= 1)%R.

(** What [score] does for a model whose method [predict] is given. *)
Definition score_contract (predict : input -> prediction) : Prop :=
  forall (x : input) (y : labels),
    (isArrayLike x = false \/ isArrayLike_labels y = false ->
     exists msg, score predict x y = Throw (TypeError msg)) /\
    (forall ys, isArrayLike x = true -> y = YArr ys ->
       score predict x y
       = Ok (ndiv (of_nat (matches (predict x) ys)) (of_nat (length ys))) /\
       (ys <> [] -> exists v, score predict x y = Ok v /\ in_unit_interval v) /\
       (ys = [] -> score predict x y = Ok NaN)).

(** A small dataset with a single class. *)
Definition one_class_fit : Multinomial.model :=
  Multinomial.MultinomialFit
    (toMatrix [[Fin 2; Fin 0]; [Fin 0; Fin 2]]) [LNum 0; LNum 0] (Fin 1).

(** The dataset of the spec's end-to-end scenario. *)
Definition spec_x : matrix :=
  toMatrix [[Fin 2; Fin 0]; [Fin 0; Fin 2]; [Fin 3; Fin 1]; [Fin 1; Fin 3]].

Definition spec_y : list label := [LNum 0; LNum 0; LNum 1; LNum 1].

Definition spec_fit : Multinomial.model :=
  Multinomial.MultinomialFit spec_x spec_y (Fin 1).


(** What [score] does on a matrix of observations, whatever the lengths. *)
Definition score_unchecked (predict : input -> prediction)
    (predictOne : list num -> option label) : Prop :=
  forall (m : matrix) (ys : list label),
    predict (InMat m) = PMany (row_predictions predictOne m) /\
    length (row_predictions predictOne m) = shape0 m /\
    score predict (InMat m) (YArr ys)
    = Ok (ndiv (of_nat (matches (predict (InMat m)) ys)) (of_nat (length ys))) /\
    matches (predict (InMat m)) ys <= Nat.min (shape0 m) (length ys).

(** A matrix with [r] rows of [c] entries each. *)
Definition mat_wf (r c : nat) (m : matrix) : Prop :=
  length (rows m) = r /\ Forall (fun row => length row = c) (rows m).

(** The rows, among the first [n], whose label is [c]. *)
Definition class_rows (n : nat) (y : list label) (c : label) : list nat :=
  filter (fun j => y !! j = Some c) (seq 0 n).

(** The sum of [x[ row ][ j ]] over the rows [ids]. *)
Definition feature_count (x : matrix) (ids : list nat) (j : nat) : num :=
  compute_sum (map (fun r => mat_get x r j) ids).


(** [ln( nc / n )] *)
Definition spec_prior (nc n : nat) : num := Math_log (ndiv (of_nat nc) (of_nat n)).


(** The counts as the code holds them, after the conversion to a signed
    32-bit integer, and the parameter computed from them. *)
Definition stored_count (x : matrix) (ids : list nat) (j : nat) : Z :=
  ToInt32 (feature_count x ids j).

Definition stored_cprob (x : matrix) (ids : list nat) (p : nat) (alpha : num) (j : nat) : num :=
  nsub (Math_log (nadd (of_Z (stored_count x ids j)) alpha))
       (Math_log (nadd (compute_sum (map (fun k => of_Z (stored_count x ids k)) (seq 0 p)))
                       (nmul (of_nat p) alpha))).


(** [f 0 + (f 1 + (... + f (k-1)))], the sum over the [k] features. *)
Definition big_sum (f : nat -> num) (k : nat) : num :=
  foldr nadd (Fin 0) (map f (seq 0 k)).

(** The Gaussian log-likelihood in the words of the specification:
    [prior[classes[i]] + Σ_j ( -0.5·ln(2π)·sigma[j][i]
                                - 0.5·(v[j] - mu[j][i]) / sigma[j][i] )]. *)
Definition gaussian_loglik_spec (this : Gaussian.model) (v : list num) (i : nat) : num :=
  nadd (prop_get (Gaussian.prior this) (Gaussian.classes this !! i))
       (big_sum
          (fun j =>
             nsub (nmul (nmul (Fin (- 0.5)) (Math_log (nmul (Fin 2) (Fin PI))))
                        (mat_get (Gaussian.sigma this) j i))
                  (ndiv (nmul (Fin 0.5)
                              (nsub (vec_get v j) (mat_get (Gaussian.mu this) j i)))
                        (mat_get (Gaussian.sigma this) j i)))
          (Gaussian.p this)).

(** [x != 0]: NaN differs from zero. *)
Definition ne0 (x : num) : bool :=
  match x with
  | Fin r => bool_decide (r <> 0%R)
  | _ => true
  end.

(** The multinomial log-likelihood in the words of the specification:
    [prior[classes[i]] + Σ_j ( v[j] != 0 ? v[j]·cprob[j][i] : 0 )]. *)
Definition multinomial_loglik_spec (this : Multinomial.model) (v : list num) (i : nat) : num :=
  nadd (prop_get (Multinomial.prior this) (Multinomial.classes this !! i))
       (big_sum
          (fun j =>
             if ne0 (vec_get v j)
             then nmul (vec_get v j) (mat_get (Multinomial.cprob this) j i)
             else Fin 0)
          (Multinomial.p this)).

(** A model fitted with a negative smoothing constant: one document
    with the counts 1 and 5, and [alpha = -1], so that
    [cprob[ 0 ][ 0 ] = ln( 1 - 1 ) - ln( 6 - 2 )] is -Infinity. *)
Definition degenerate_fit : Multinomial.model :=
  Multinomial.MultinomialFit (toMatrix [[Fin 1; Fin 5]]) [LNum 0] (Fin (- 1)).

(** The entries of column [j] of [x] in the rows [ids]. *)
Definition column (x : matrix) (ids : list nat) (j : nat) : list num :=
  map (fun r => mat_get x r j) ids.

(** Two observations with the same value of their only feature, in one
    class. *)
Definition constant_x : matrix := toMatrix [[Fin 1]; [Fin 1]].

Definition constant_fit : Gaussian.model :=
  Gaussian.GaussianFit constant_x [LNum 0; LNum 0].




(** [a + ln( Σ_i exp( loglik_i - a ) )] with [a = max_i loglik_i]. *)
Definition log_normalizer (logLik : list num) : num :=
  let a := compute_max logLik in
  nadd a (Math_log (compute_sum (map (fun l => Math_exp (nsub l a)) logLik))).

(** What [predictProbs] returns for one observation whose class
    log-likelihoods are [L 0], ..., [L (nclass - 1)]: one entry per
    class, by the formula.  The entries form a probability vector when
    no log-likelihood is NaN or +Infinity and one at least is finite (a
    class at -Infinity gets the probability 0); in every other case each
    entry is NaN. *)
Definition softmax_contract (nclass : nat) (L : nat -> num) (ps : list num) : Prop :=
  length ps = nclass /\
  (forall i, i < nclass ->
     ps !! i = Some (Math_exp (nsub (L i) (log_normalizer (map L (seq 0 nclass)))))) /\
  ((forall i, i < nclass -> L i <> NaN /\ L i <> PInf) ->
   (exists i, i < nclass /\ is_finite (L i) = true) ->
   Forall in_unit_interval ps /\ compute_sum ps = Fin 1) /\
  ((exists i, i < nclass /\ (L i = NaN \/ L i = PInf)) \/
   (forall i, i < nclass -> L i = NInf) ->
   Forall (fun q => q = NaN) ps).

(** A hand-made model with one class, one feature and finite parameters. *)
Definition unit_model : Multinomial.model :=
  Multinomial.Model 1 1 [LNum 0] 1 (Fin 1) {[ "0" := Fin 0 ]} (matrix_zeros 1 1).

(** Labels that mix the number 1 with the string ["1"]: two classes
    under [===], one property key. *)
Definition mixed_y : list label := [LNum 1; LNum 1; LStr "1"].

Definition mixed_fit : Multinomial.model :=
  Multinomial.MultinomialFit (toMatrix [[Fin 1]; [Fin 1]; [Fin 1]]) mixed_y (Fin 1).

(** [x] is accepted as a design matrix and [y] as a label vector. *)
Definition valid_arguments (x : input) (y : labels) : bool :=
  (isArrayArray x || isMatrixLike x) && isArrayLike_labels y.

(** The smoothing constant [multinomNB] passes on for an options
    object: the supplied [alpha] itself when it is truthy (a number
    other than 0 and NaN, [true], a non-empty string, an object or an
    array), and the number 1 when [alpha] is missing or falsy (0, NaN,
    [undefined], [null], [false], the empty string). *)
Definition effective_alpha (o : gmap string jsval) : jsval :=
  match o !! "alpha" with
  | Some (JNumber a) => if truthy a then JNumber a else JNumber (Fin 1)
  | Some (JBool true) => JBool true
  | Some (JString s) => if decide (s = "") then JNumber (Fin 1) else JString s
  | Some JObject => JObject
  | _ => JNumber (Fin 1)
  end.

(** A label that is a number. *)
Definition numeric_label (c : label) : bool :=
  match c with
  | LNum _ => true
  | LStr _ => false
  end.

(** The accuracy [score] returns is 1 exactly when every position of
    [y] agrees with the prediction, and 0 exactly when none does. *)
Definition score_extremes (predict : input -> prediction) : Prop :=
  forall (x : input) (ys : list label),
    isArrayLike x = true -> ys <> [] ->
    exists r : R,
      score predict x (YArr ys) = Ok (Fin r) /\
      (r = 1%R <-> forall i, i < length ys -> agree (predict x) ys i = true) /\
      (r = 0%R <-> forall i, i < length ys -> agree (predict x) ys i = false).

(** The index the scan selects among the log-likelihoods [L]: the first
    class, or a later class whose log-likelihood is greater than that
    of the first; so never a later class whose log-likelihood is NaN,
    and always the first class when its log-likelihood is NaN. *)
Definition scan_choice (L : nat -> num) (nclass k : nat) : Prop :=
  k < nclass /\
  (k = 0 \/ ngt (L k) (L 0) = true) /\
  (L 0 = NaN -> k = 0) /\
  (k <> 0 -> L k <> NaN).

(** The labels a prediction holds are all classes of the model. *)
Definition predicts_classes (classes : list label) (yhat : prediction) : Prop :=
  match yhat with
  | POne c => exists c', c = Some c' /\ c' ∈ classes
  | PMany cs => Forall (fun c => exists c', c = Some c' /\ c' ∈ classes) cs
  end.

(** [score] of one observation given as a vector, for a model with
    predictor [predict], is 0 whatever the labels in [y]. *)
Definition score_of_vector_zero (predict : input -> prediction) : Prop :=
  forall (v : list num) (ys : list label),
    ys <> [] ->
    exists r : R, score predict (InVec v) (YArr ys) = Ok (Fin r) /\ r = 0%R.

(** The tables of a fitted model: a [p]-by-[nclass] matrix with its
    shape fields set, every entry present. *)
Definition full_table (p nclass : nat) (m : matrix) : Prop :=
  shape0 m = p /\ shape1 m = nclass /\ mat_wf p nclass m.

(** The properties of [prior] are exactly the keys of the classes. *)
Definition prior_keys (classes : list label) (prior : gmap string num) : Prop :=
  forall k : string,
    is_Some (prior !! k) <-> exists c, c ∈ classes /\ key (Some c) = k.

(** No two classes share a property key. *)
Definition keys_unshared (classes : list label) : Prop :=
  forall c c', c ∈ classes -> c' ∈ classes -> key (Some c) = key (Some c') -> c = c'.

(** The priors are the logarithms of the class frequencies among the
    [n] rows: each is a finite number not above 0 whose exponential is
    [nc / n] with [nc >= 1], and the exponentials sum to 1. *)
Definition empirical_priors (n : nat) (y : list label) (classes : list label)
    (prior : gmap string num) : Prop :=
  (forall c, c ∈ classes ->
     exists r : R,
       prop_get prior (Some c) = Fin r /\ (r <= 0)%R /\
       1 <= length (class_rows n y c) /\
       exp r = (INR (length (class_rows n y c)) / INR n)%R) /\
  compute_sum (map (fun c => Math_exp (prop_get prior (Some c))) classes) = Fin 1.

(** [predictProbs] on the matrix [m] returns one probability vector per
    row, in row order, the one it returns for that row as a vector. *)
Definition probs_by_row (predictProbs : input -> probabilities) (m : matrix) : Prop :=
  exists pss : list (list num),
    predictProbs (InMat m) = QMany (map Some pss) /\
    length pss = shape0 m /\
    forall i, i < shape0 m ->
      exists ps, pss !! i = Some ps /\ predictProbs (InVec (mat_row m i)) = QOne ps.

(** The features and the parameters the multinomial log-likelihood of
    the rows of [m] multiplies are all finite. *)
Definition finite_products (this : Multinomial.model) (m : matrix) : Prop :=
  forall i j k, i < shape0 m -> j < Multinomial.p this -> k < Multinomial.nclass this ->
    is_finite (mat_get m i j) = true /\
    is_finite (mat_get (Multinomial.cprob this) j k) = true.

(** The class [predictOne] returns for [v] is one of greatest
    probability in what [predictProbs] returns for [v], a vector with
    one entry per class: no entry is greater than that of the class
    returned. *)
Definition predicts_most_probable (classes : list label)
    (predictOne : list num -> option label)
    (predictProbs : input -> probabilities) (v : list num) : Prop :=
  exists (k : nat) (c : label) (ps : list num),
    predictOne v = Some c /\ classes !! k = Some c /\
    predictProbs (InVec v) = QOne ps /\
    length ps = length classes /\
    forall i, i < length classes -> ngt (vec_get ps i) (vec_get ps k) = false.

(** The real a finite number holds. *)
Definition real_of (x : num) : R :=
  match x with
  | Fin r => r
  | _ => 0%R
  end.

(** * Properties *)

(** ** Loops and arrays *)

Lemma for_loop_0 {S : Type} (body : nat -> S -> S) (s : S) :
  for_loop 0 body s = s.
Proof. reflexivity. Qed.

Lemma for_loop_S {S : Type} (k : nat) (body : nat -> S -> S) (s : S) :
  for_loop (Datatypes.S k) body s = body k (for_loop k body s).
Proof.
  unfold for_loop. rewrite seq_S, fold_left_app. reflexivity.
Qed.

Lemma for_loop_ext {S : Type} (k : nat) (f g : nat -> S -> S) (s : S) :
  (forall i st, i < k -> f i st = g i st) ->
  for_loop k f s = for_loop k g s.
Proof.
  intros Hfg. induction k as [|k IH]; [reflexivity|].
  rewrite !for_loop_S, IH by (intros; apply Hfg; lia).
  apply Hfg. lia.
Qed.

Lemma arr_set_end {A : Type} (hole : A) (arr : list A) (v : A) :
  arr_set hole arr (length arr) v = arr ++ [v].
Proof.
  unfold arr_set. destruct (decide (length arr < length arr)) as [H|_]; [lia|].
  rewrite Nat.sub_diag. reflexivity.
Qed.

Lemma arr_set_in {A : Type} (hole : A) (arr : list A) (i : nat) (v : A) :
  i < length arr -> arr_set hole arr i v = <[i:=v]> arr.
Proof.
  intros Hi. unfold arr_set. destruct (decide (i < length arr)); [reflexivity|lia].
Qed.

(** Filling the array [ret = []] element by element, in index order. *)
Lemma collect_loop {A : Type} (hole : A) (k : nat) (f : nat -> A) :
  for_loop k (fun i ret => arr_set hole ret i (f i)) [] = map f (seq 0 k).
Proof.
  induction k as [|k IH]; [reflexivity|].
  rewrite for_loop_S, IH, seq_S, map_app. simpl.
  replace k with (length (map f (seq 0 k))) at 2
    by (rewrite length_map, length_seq; reflexivity).
  apply arr_set_end.
Qed.

(** Assigning every index of a preallocated array [new Array( k )]. *)
Lemma fill_prefix (k t : nat) (f : nat -> num) :
  t <= k ->
  for_loop t (fun i logLik => arr_set NaN logLik i (f i)) (replicate k NaN)
  = map f (seq 0 t) ++ replicate (k - t) NaN.
Proof.
  induction t as [|t IH]; intros Ht.
  - simpl. rewrite Nat.sub_0_r. reflexivity.
  - rewrite for_loop_S, IH by lia.
    rewrite arr_set_in
      by (rewrite length_app, length_map, length_seq, length_replicate; lia).
    replace (k - t) with (Datatypes.S (k - Datatypes.S t)) by lia.
    rewrite seq_S, map_app. simpl.
    rewrite <- app_assoc. simpl.
    replace t with (length (map f (seq 0 t)) + 0) at 1
      by (rewrite length_map, length_seq; lia).
    rewrite insert_app_r. reflexivity.
Qed.

Lemma fill_array_map (k : nat) (f : nat -> num) :
  fill_array k f = map f (seq 0 k).
Proof.
  unfold fill_array. rewrite fill_prefix by lia.
  rewrite Nat.sub_diag. apply app_nil_r.
Qed.

Lemma fill_array_length (k : nat) (f : nat -> num) : length (fill_array k f) = k.
Proof. rewrite fill_array_map, length_map, length_seq. reflexivity. Qed.

Lemma fill_array_get (k : nat) (f : nat -> num) (i : nat) :
  i < k -> vec_get (fill_array k f) i = f i.
Proof.
  intros Hi. unfold vec_get. rewrite fill_array_map, list_lookup_fmap.
  rewrite lookup_seq_lt by lia. reflexivity.
Qed.

Lemma fill_array_ext (k : nat) (f g : nat -> num) :
  (forall i, i < k -> f i = g i) -> fill_array k f = fill_array k g.
Proof.
  intros Hfg. rewrite !fill_array_map. apply map_ext_in.
  intros i Hi. apply in_seq in Hi. apply Hfg. lia.
Qed.

(** ** The entry point [multinomNB] *)

Lemma arguments_gt_false (argc : nat) (k : num) : arguments_gt argc k = false.
Proof. reflexivity. Qed.

Lemma check_design_ok (x : input) (m : matrix) :
  design_of x = Some m -> check_design x = Ok m.
Proof.
  destruct x as [v|[|r rs]|m'|a]; simpl; intros H; inversion H; reflexivity.
Qed.

Lemma check_design_throw (x : input) :
  design_of x = None -> exists msg, check_design x = Throw (TypeError msg).
Proof.
  destruct x as [v|[|r rs]|m'|a]; simpl; intros H; try discriminate; eauto.
Qed.

(** C1 (the code departs from the claim).  A call [multinomNB( x, y )]
    with a valid design matrix (a matrix or a non-empty array of arrays)
    and an array of labels, but without the options argument, does not
    fit a model with [alpha = 1]: the guard [arguments > 2] is always
    false, and the line [alpha = opts.alpha || 1] then reads a property
    of [undefined], so the call throws. *)
Theorem multinomNB_without_options_throws (x : input) (m : matrix) (ys : list label) :
  design_of x = Some m ->
  multinomNB x (YArr ys) None
  = Throw (TypeError "Cannot read properties of undefined").
Proof.
  intros Hx. unfold multinomNB.
  rewrite (check_design_ok _ _ Hx). reflexivity.
Qed.

Lemma multinomNB_without_options_throws_witness :
  multinomNB (InRows [[Fin 1; Fin 0]; [Fin 0; Fin 1]]) (YArr [LNum 0; LNum 1]) None
  = Throw (TypeError "Cannot read properties of undefined").
Proof.
  apply (multinomNB_without_options_throws _
           (toMatrix [[Fin 1; Fin 0]; [Fin 0; Fin 1]])).
  reflexivity.
Defined.

(** The same dead guard lets an [alpha] through that is not a number:
    the boolean [true] is not rejected, and the model is fitted with it. *)
Lemma multinomNB_boolean_alpha_accepted (x : input) (m : matrix) (ys : list label) :
  design_of x = Some m ->
  multinomNB x (YArr ys) (Some {[ "alpha" := JBool true ]})
  = Ok (Fitted (Multinomial.MultinomialFit m ys (Fin 1))).
Proof.
  intros Hx. unfold multinomNB.
  rewrite (check_design_ok _ _ Hx). reflexivity.
Qed.


(** ** [predict] and [predictProbs] on matrices and vectors *)

Lemma mat_data_one_row (m : matrix) (i : nat) :
  mat_data (mat_mget_rows m [i]) = mat_row m i.
Proof. unfold mat_data, mat_mget_rows. simpl. apply app_nil_r. Qed.

Lemma Multinomial_predict_matrix (this : Multinomial.model) (m : matrix) :
  Multinomial.predict this (InMat m)
  = PMany (map (fun i => Multinomial.predictOne this (mat_row m i)) (seq 0 (shape0 m))).
Proof.
  unfold Multinomial.predict. simpl. f_equal.
  apply (collect_loop None (shape0 m)
           (fun i => Multinomial.predictOne this (mat_row m i))).
Qed.

Lemma Gaussian_predict_matrix (this : Gaussian.model) (m : matrix) :
  Gaussian.predict this (InMat m)
  = PMany (map (fun i => Gaussian.predictOne this (mat_row m i)) (seq 0 (shape0 m))).
Proof.
  unfold Gaussian.predict. simpl. f_equal.
  rewrite <- (collect_loop None (shape0 m)
                (fun i => Gaussian.predictOne this (mat_row m i))).
  apply for_loop_ext. intros i ret _.
  rewrite mat_data_one_row. reflexivity.
Qed.

Lemma row_predictions_length (predictOne : list num -> option label) (m : matrix) :
  length (row_predictions predictOne m) = shape0 m.
Proof. unfold row_predictions. rewrite length_map, length_seq. reflexivity. Qed.

Lemma row_predictions_lookup (predictOne : list num -> option label) (m : matrix) (i : nat) :
  i < shape0 m -> row_predictions predictOne m !! i = Some (predictOne (mat_row m i)).
Proof.
  intros Hi. unfold row_predictions.
  rewrite list_lookup_fmap, lookup_seq_lt by lia. reflexivity.
Qed.

Lemma dual_arity_intro (predict : input -> prediction)
    (predictOne : list num -> option label) :
  (forall m, predict (InMat m) = PMany (row_predictions predictOne m)) ->
  (forall r rs, predict (InRows (r :: rs)) = predict (InMat (toMatrix (r :: rs)))) ->
  (forall v, predict (InVec v) = POne (predictOne v)) ->
  dual_arity predict predictOne.
Proof.
  intros Hm Hr Hv. unfold dual_arity. repeat split.
  - rewrite Hm in H. inversion H. apply row_predictions_length.
  - intros i Hi. rewrite Hm in H. inversion H. apply row_predictions_lookup, Hi.
  - intros m. eexists. apply Hm.
  - exact Hr.
  - exact Hv.
  - intros m H1. exists (predictOne (mat_row m 0)). split.
    + rewrite Hm. unfold row_predictions. rewrite H1. reflexivity.
    + apply Hv.
Qed.

(** C9.  For both models, [predict] on a matrix returns one label per
    row, in row order, the label at position [i] being [predictOne] of
    row [i]; [predict] on a single observation returns the label
    [predictOne] gives; so for a one-row matrix the result is the
    one-element array holding [predict] of that row as a vector. *)
Theorem predict_dual_arity :
  (forall this : Multinomial.model,
     dual_arity (Multinomial.predict this) (Multinomial.predictOne this)) /\
  (forall this : Gaussian.model,
     dual_arity (Gaussian.predict this) (Gaussian.predictOne this)).
Proof.
  split; intros this; apply dual_arity_intro.
  - apply Multinomial_predict_matrix.
  - reflexivity.
  - reflexivity.
  - apply Gaussian_predict_matrix.
  - reflexivity.
  - reflexivity.
Qed.

(** C10.  For both models, [predictProbs] on a matrix with zero rows
    returns an array of length 1 whose only entry is [undefined]: the
    array is allocated by [new Array( nrow )] while [nrow] is still
    [undefined], and the loop over the rows never runs. *)
Theorem predictProbs_zero_rows (m : matrix) :
  shape0 m = 0 ->
  (forall this : Multinomial.model,
     Multinomial.predictProbs this (InMat m) = QMany [None]) /\
  (forall this : Gaussian.model,
     Gaussian.predictProbs this (InMat m) = QMany [None]).
Proof.
  intros H0. split; intros this.
  - unfold Multinomial.predictProbs. simpl. rewrite H0. reflexivity.
  - unfold Gaussian.predictProbs. simpl. rewrite H0. reflexivity.
Qed.

Lemma predictProbs_zero_rows_witness :
  (forall this : Multinomial.model,
     Multinomial.predictProbs this (InMat (Matrix 0 2 [])) = QMany [None]) /\
  (forall this : Gaussian.model,
     Gaussian.predictProbs this (InMat (Matrix 0 2 [])) = QMany [None]).
Proof. apply (predictProbs_zero_rows (Matrix 0 2 [])). reflexivity. Defined.

Lemma predict_dual_arity_witness :
  exists c,
    Multinomial.predict
      (Multinomial.Model 1 1 [LNum 0] 1 (Fin 1) ∅ (matrix_zeros 1 1))
      (InMat (Matrix 1 1 [[Fin 2]])) = PMany [c] /\
    Multinomial.predict
      (Multinomial.Model 1 1 [LNum 0] 1 (Fin 1) ∅ (matrix_zeros 1 1))
      (InVec (mat_row (Matrix 1 1 [[Fin 2]]) 0)) = POne c.
Proof.
  destruct predict_dual_arity as [HM _].
  destruct (HM (Multinomial.Model 1 1 [LNum 0] 1 (Fin 1) ∅ (matrix_zeros 1 1)))
    as (_ & _ & _ & _ & H1).
  apply (H1 (Matrix 1 1 [[Fin 2]])). reflexivity.
Defined.

(** ** The order on numbers *)

(** Settle the tests on concrete reals that stand in a goal. *)
Ltac decide_reals :=
  repeat match goal with
         | |- context [decide ?P] =>
             destruct (decide P) as [?|?]; try (exfalso; lra)
         end.

Lemma ngt_irrefl (x : num) : ngt x x = false.
Proof.
  destruct x as [| | |a]; simpl; try reflexivity.
  apply bool_decide_eq_false. lra.
Qed.

Lemma ngt_trans (x y z : num) :
  ngt x y = true -> ngt y z = true -> ngt x z = true.
Proof.
  destruct x as [| | |a], y as [| | |b], z as [| | |c]; simpl;
    try discriminate; try reflexivity.
  rewrite !bool_decide_eq_true. lra.
Qed.

Lemma ngt_Fin (a b : R) : ngt (Fin a) (Fin b) = false -> (a <= b)%R.
Proof. simpl. rewrite bool_decide_eq_false. lra. Qed.

(** ** The scan for the most likely class *)

Lemma argmax_scan_prefix (classes : list label) (logLik : list num) (t : nat) :
  exists k,
    (k < t \/ k = 0) /\
    for_loop t (argmax_step classes logLik) (vec_get logLik 0, classes !! 0)
    = (vec_get logLik k, classes !! k) /\
    (forall i, i < t -> ngt (vec_get logLik i) (vec_get logLik k) = false) /\
    (forall i, i < k -> vec_get logLik i <> vec_get logLik k).
Proof.
  induction t as [|t (k & Hk & Hloop & Hmax & Hfirst)].
  - exists 0. repeat split; [right; reflexivity | |]; intros i Hi; lia.
  - rewrite for_loop_S, Hloop. unfold argmax_step at 1. simpl fst.
    destruct (ngt (vec_get logLik t) (vec_get logLik k)) eqn:Hgt.
    + exists t. repeat split; [left; lia | |].
      * intros i Hi. destruct (decide (i = t)) as [->|Hne]; [apply ngt_irrefl|].
        destruct (ngt (vec_get logLik i) (vec_get logLik t)) eqn:Hit; [|reflexivity].
        rewrite <- (Hmax i) by lia. symmetry. eapply ngt_trans; eassumption.
      * intros i Hi Heq. rewrite <- Heq, Hmax in Hgt by lia. discriminate.
    + exists k. repeat split; [destruct Hk; [left; lia | right; assumption] | | exact Hfirst].
      intros i Hi. destruct (decide (i = t)) as [->|Hne]; [exact Hgt|].
      apply Hmax. lia.
Qed.

Lemma argmax_scan_first (classes : list label) (nClasses : nat) (logLik : list num) :
  0 < nClasses ->
  exists k,
    first_argmax (vec_get logLik) nClasses k /\
    argmax_scan classes nClasses logLik = classes !! k.
Proof.
  intros Hpos.
  destruct (argmax_scan_prefix classes logLik nClasses) as (k & Hk & Hloop & Hmax & Hfirst).
  exists k. unfold first_argmax, argmax_scan. rewrite Hloop. simpl.
  repeat split; [lia | exact Hmax | exact Hfirst].
Qed.

Lemma first_argmax_ext (L L' : nat -> num) (nclass k : nat) :
  (forall i, i < nclass -> L i = L' i) ->
  first_argmax L nclass k -> first_argmax L' nclass k.
Proof.
  intros HL (Hk & Hmax & Hfirst). repeat split; [exact Hk | |].
  - intros i Hi. rewrite <- !HL by lia. apply Hmax, Hi.
  - intros i Hi. rewrite <- !HL by lia. apply Hfirst, Hi.
Qed.

(** When the log-likelihoods are finite, the index found carries their
    maximum. *)
Lemma first_argmax_is_max (L : nat -> num) (nclass k i : nat) (a b : R) :
  first_argmax L nclass k -> i < nclass -> L i = Fin a -> L k = Fin b -> (a <= b)%R.
Proof.
  intros (_ & Hmax & _) Hi Ha Hb. apply ngt_Fin. rewrite <- Ha, <- Hb. apply Hmax, Hi.
Qed.

(** Among two classes with the same log-likelihood the later one is
    never the one found. *)
Lemma first_argmax_tie (L : nat -> num) (nclass k i j : nat) :
  first_argmax L nclass k -> i < j -> L i = L j -> k <> j.
Proof.
  intros (_ & _ & Hfirst) Hij Heq ->. exact (Hfirst i Hij Heq).
Qed.

Lemma Multinomial_predictOne_argmax (this : Multinomial.model) (x : list num) :
  Multinomial.classes this <> [] ->
  exists k c,
    first_argmax (Multinomial.calcMultinomProb this x)
      (length (Multinomial.classes this)) k /\
    Multinomial.classes this !! k = Some c /\
    Multinomial.predictOne this x = Some c.
Proof.
  intros Hne.
  assert (Hpos : 0 < length (Multinomial.classes this))
    by (destruct (Multinomial.classes this); [congruence | simpl; lia]).
  destruct (argmax_scan_first (Multinomial.classes this) _
              (fill_array (length (Multinomial.classes this))
                 (Multinomial.loglik this (vec_get x))) Hpos) as (k & Hk & Hres).
  apply (first_argmax_ext _ (Multinomial.calcMultinomProb this x)) in Hk;
    [|intros i Hi; apply fill_array_get, Hi].
  destruct (lookup_lt_is_Some_2 (Multinomial.classes this) k) as [c Hc];
    [apply Hk|].
  exists k, c. repeat split; try apply Hk; [exact Hc|].
  unfold Multinomial.predictOne. rewrite Hres. exact Hc.
Qed.

Lemma Gaussian_predictOne_argmax (this : Gaussian.model) (x : list num) :
  Gaussian.classes this <> [] ->
  exists k c,
    first_argmax (Gaussian.calcGaussianProb this x)
      (length (Gaussian.classes this)) k /\
    Gaussian.classes this !! k = Some c /\
    Gaussian.predictOne this x = Some c.
Proof.
  intros Hne.
  assert (Hpos : 0 < length (Gaussian.classes this))
    by (destruct (Gaussian.classes this); [congruence | simpl; lia]).
  destruct (argmax_scan_first (Gaussian.classes this) _
              (fill_array (length (Gaussian.classes this))
                 (Gaussian.calcGaussianProb this x)) Hpos) as (k & Hk & Hres).
  apply (first_argmax_ext _ (Gaussian.calcGaussianProb this x)) in Hk;
    [|intros i Hi; apply fill_array_get, Hi].
  destruct (lookup_lt_is_Some_2 (Gaussian.classes this) k) as [c Hc];
    [apply Hk|].
  exists k, c. repeat split; try apply Hk; [exact Hc|].
  unfold Gaussian.predictOne. rewrite Hres. exact Hc.
Qed.

(** The scan, step by step: what the running maximum and its class are
    after [t] rounds. *)
Lemma ngt_above (x y z : num) :
  ngt x y = true -> ngt z y = false -> z <> NaN -> ngt x z = true.
Proof.
  destruct x as [| | |a], y as [| | |b], z as [| | |c]; simpl;
    try discriminate; try reflexivity; try congruence.
  rewrite !bool_decide_eq_true, bool_decide_eq_false. lra.
Qed.

Lemma ngt_true_numbers (x y : num) : ngt x y = true -> x <> NaN /\ y <> NaN.
Proof. destruct x, y; simpl; intros H; try discriminate; split; discriminate. Qed.

Lemma argmax_scan_rounds (classes : list label) (logLik : list num) (t : nat) :
  exists k,
    (k < t \/ k = 0) /\
    for_loop t (argmax_step classes logLik) (vec_get logLik 0, classes !! 0)
    = (vec_get logLik k, classes !! k) /\
    (vec_get logLik 0 = NaN -> k = 0) /\
    (vec_get logLik 0 <> NaN ->
     vec_get logLik k <> NaN /\
     (forall i, i < t -> ngt (vec_get logLik i) (vec_get logLik k) = false) /\
     (forall i, i < k -> vec_get logLik i <> NaN ->
                ngt (vec_get logLik k) (vec_get logLik i) = true)).
Proof.
  induction t as [|t (k & Hk & Hloop & Hnan & Hnum)].
  - exists 0. split; [right; reflexivity|]. split; [reflexivity|].
    split; [reflexivity|]. intros H0. split; [exact H0|].
    split; intros i Hi; lia.
  - rewrite for_loop_S, Hloop. unfold argmax_step at 1. simpl fst.
    destruct (ngt (vec_get logLik t) (vec_get logLik k)) eqn:Hgt.
    + destruct (ngt_true_numbers _ _ Hgt) as [Ht Hkn].
      assert (H0 : vec_get logLik 0 <> NaN)
        by (intros H0; apply Hkn; rewrite (Hnan H0); exact H0).
      destruct (Hnum H0) as (_ & Hmax & _).
      exists t. split; [left; lia|]. split; [reflexivity|].
      split; [intros H; contradiction|]. intros _. split; [exact Ht|]. split.
      * intros i Hi. destruct (decide (i = t)) as [->|Hne]; [apply ngt_irrefl|].
        destruct (ngt (vec_get logLik i) (vec_get logLik t)) eqn:Hit; [|reflexivity].
        rewrite <- (Hmax i) by lia. symmetry. eapply ngt_trans; eassumption.
      * intros i Hi Hin. apply (ngt_above _ (vec_get logLik k)); [exact Hgt | | exact Hin].
        apply Hmax, Hi.
    + exists k. split; [destruct Hk; [left; lia | right; assumption]|].
      split; [reflexivity|]. split; [exact Hnan|].
      intros H0. destruct (Hnum H0) as (Hkn & Hmax & Hbefore).
      split; [exact Hkn|]. split; [|exact Hbefore].
      intros i Hi. destruct (decide (i = t)) as [->|Hne]; [exact Hgt|].
      apply Hmax. lia.
Qed.

Lemma argmax_scan_result (classes : list label) (nClasses : nat) (logLik : list num) :
  0 < nClasses ->
  exists k,
    scan_result (vec_get logLik) nClasses k /\
    first_argmax (vec_get logLik) nClasses k /\
    argmax_scan classes nClasses logLik = classes !! k.
Proof.
  intros Hpos.
  destruct (argmax_scan_rounds classes logLik nClasses) as (k & Hk & Hloop & Hnan & Hnum).
  destruct (argmax_scan_prefix classes logLik nClasses) as (k' & Hk' & Hloop' & Hmax & Hfirst).
  assert (Hkk : vec_get logLik k' = vec_get logLik k /\ classes !! k' = classes !! k)
    by (rewrite Hloop in Hloop'; injection Hloop' as E1 E2; split; congruence).
  destruct Hkk as [Hv Hc].
  exists k'. split; [|split].
  - unfold scan_result. split; [lia|]. split.
    + intros H0. destruct Hk' as [Hlt| ->]; [|reflexivity].
      destruct (decide (k' = 0)) as [->|Hne]; [reflexivity|].
      exfalso. apply (Hfirst 0); [lia|]. rewrite Hv, (Hnan H0). reflexivity.
    + intros H0. destruct (Hnum H0) as (Hkn & Hmaxk & Hbefore).
      split; [rewrite Hv; exact Hkn|]. split; [exact Hmax|].
      intros i Hi Hin.
      destruct (ngt (vec_get logLik k') (vec_get logLik i)) eqn:Hgt; [reflexivity|].
      exfalso. apply (Hfirst i Hi).
      pose proof (Hmax i ltac:(lia)) as Hle. rewrite <- Hv in Hkn.
      clear - Hgt Hle Hin Hkn.
      destruct (vec_get logLik i) as [| | |a], (vec_get logLik k') as [| | |b];
        simpl in *; try discriminate; try congruence.
      apply bool_decide_eq_false in Hgt, Hle. f_equal. lra.
  - unfold first_argmax. split; [lia|]. split; [exact Hmax | exact Hfirst].
  - unfold argmax_scan. rewrite Hloop'. reflexivity.
Qed.

(** The conditions of [scan_result] leave no choice. *)
Lemma scan_result_unique (L : nat -> num) (nclass k k' : nat) :
  scan_result L nclass k -> scan_result L nclass k' -> k = k'.
Proof.
  intros (Hk & Hnan & Hnum) (Hk' & Hnan' & Hnum').
  assert (Hcase : L 0 = NaN \/ L 0 <> NaN)
    by (destruct (L 0); [left; reflexivity | right; discriminate ..]).
  destruct Hcase as [H0|H0]; [rewrite (Hnan H0), (Hnan' H0); reflexivity|].
  destruct (Hnum H0) as (Hkn & Hmax & Hbefore).
  destruct (Hnum' H0) as (Hkn' & Hmax' & Hbefore').
  destruct (lt_eq_lt_dec k k') as [[Hlt|Heq]|Hlt]; [|exact Heq|]; exfalso.
  - specialize (Hbefore' k Hlt Hkn). rewrite (Hmax k' Hk') in Hbefore'. discriminate.
  - specialize (Hbefore k' Hlt Hkn'). rewrite (Hmax' k Hk) in Hbefore. discriminate.
Qed.

Lemma scan_result_ext (L L' : nat -> num) (nclass k : nat) :
  (forall i, i < nclass -> L i = L' i) ->
  scan_result L nclass k -> scan_result L' nclass k.
Proof.
  intros HL (Hk & Hnan & Hnum).
  assert (Hpos : 0 < nclass) by lia.
  unfold scan_result. rewrite <- (HL 0 Hpos), <- (HL k Hk).
  split; [exact Hk|]. split; [exact Hnan|].
  intros H0. destruct (Hnum H0) as (Hkn & Hmax & Hbefore).
  split; [exact Hkn|]. split.
  - intros i Hi. rewrite <- (HL i Hi). apply Hmax, Hi.
  - intros i Hi. rewrite <- (HL i) by lia. apply Hbefore, Hi.
Qed.

(** What the scan of a [predictOne] over the log-likelihoods [L]
    returns, for a model with the classes [classes]. *)
Lemma scan_determined (classes : list label) (L : nat -> num) :
  classes <> [] ->
  exists k c,
    first_argmax L (length classes) k /\
    scan_result L (length classes) k /\
    (forall k', scan_result L (length classes) k' -> k' = k) /\
    classes !! k = Some c /\
    argmax_scan classes (length classes) (fill_array (length classes) L) = Some c /\
    forall i j, i < j -> L i = L j -> k <> j.
Proof.
  intros Hne.
  assert (Hpos : 0 < length classes) by (destruct classes; [congruence | simpl; lia]).
  destruct (argmax_scan_result classes _ (fill_array (length classes) L) Hpos)
    as (k & Hscan & Hk & Hres).
  apply (scan_result_ext _ L) in Hscan; [|intros i Hi; apply fill_array_get, Hi].
  apply (first_argmax_ext _ L) in Hk; [|intros i Hi; apply fill_array_get, Hi].
  destruct (lookup_lt_is_Some_2 classes k) as [c Hc]; [apply Hk|].
  exists k, c. split; [exact Hk|]. split; [exact Hscan|]. split.
  - intros k' Hk'. apply (scan_result_unique L (length classes)); assumption.
  - split; [exact Hc|]. split; [rewrite Hres; exact Hc|].
    intros i j. apply (first_argmax_tie _ _ _ _ _ Hk).
Qed.

(** C8.  For both models, as soon as the model has a class, [predictOne]
    returns the label [classes[ k ]] of the index [k] at which the scan
    stops, and the log-likelihoods determine that index: the scan
    replaces the running maximum only on a strict [>], so no
    log-likelihood is greater than that of [k] and no earlier class has
    the same log-likelihood; [k] is the one index that satisfies
    [scan_result], that is, the first class when its log-likelihood is
    NaN, and otherwise the first class that carries the greatest of the
    log-likelihoods that are numbers.  In particular, of two classes
    with identical log-likelihoods the one with the greater index is
    never the one returned. *)
Theorem predictOne_first_argmax :
  (forall (this : Multinomial.model) (x : list num),
     Multinomial.classes this <> [] ->
     exists k c,
       first_argmax (Multinomial.calcMultinomProb this x)
         (length (Multinomial.classes this)) k /\
       scan_result (Multinomial.calcMultinomProb this x)
         (length (Multinomial.classes this)) k /\
       (forall k', scan_result (Multinomial.calcMultinomProb this x)
                     (length (Multinomial.classes this)) k' -> k' = k) /\
       Multinomial.classes this !! k = Some c /\
       Multinomial.predictOne this x = Some c /\
       forall i j, i < j -> Multinomial.calcMultinomProb this x i
                            = Multinomial.calcMultinomProb this x j -> k <> j) /\
  (forall (this : Gaussian.model) (x : list num),
     Gaussian.classes this <> [] ->
     exists k c,
       first_argmax (Gaussian.calcGaussianProb this x)
         (length (Gaussian.classes this)) k /\
       scan_result (Gaussian.calcGaussianProb this x)
         (length (Gaussian.classes this)) k /\
       (forall k', scan_result (Gaussian.calcGaussianProb this x)
                     (length (Gaussian.classes this)) k' -> k' = k) /\
       Gaussian.classes this !! k = Some c /\
       Gaussian.predictOne this x = Some c /\
       forall i j, i < j -> Gaussian.calcGaussianProb this x i
                            = Gaussian.calcGaussianProb this x j -> k <> j).
Proof.
  split; intros this x Hne.
  - exact (scan_determined (Multinomial.classes this)
             (Multinomial.calcMultinomProb this x) Hne).
  - exact (scan_determined (Gaussian.classes this)
             (Gaussian.calcGaussianProb this x) Hne).
Qed.

Lemma predictOne_first_argmax_witness :
  exists k c,
    first_argmax (Multinomial.calcMultinomProb spec_fit [Fin 1; Fin 2])
      (length (Multinomial.classes spec_fit)) k /\
    scan_result (Multinomial.calcMultinomProb spec_fit [Fin 1; Fin 2])
      (length (Multinomial.classes spec_fit)) k /\
    (forall k', scan_result (Multinomial.calcMultinomProb spec_fit [Fin 1; Fin 2])
                  (length (Multinomial.classes spec_fit)) k' -> k' = k) /\
    Multinomial.classes spec_fit !! k = Some c /\
    Multinomial.predictOne spec_fit [Fin 1; Fin 2] = Some c /\
    forall i j, i < j -> Multinomial.calcMultinomProb spec_fit [Fin 1; Fin 2] i
                         = Multinomial.calcMultinomProb spec_fit [Fin 1; Fin 2] j ->
                k <> j.
Proof.
  apply (proj1 predictOne_first_argmax spec_fit [Fin 1; Fin 2]).
  discriminate.
Defined.

(** ** Mean accuracy *)

Lemma for_each_snoc {S : Type} (l : list nat) (i : nat)
    (body : nat -> S -> result S) (s : S) :
  for_each (l ++ [i]) body s = (s' ← for_each l body s; body i s').
Proof.
  revert s. induction l as [|j l IH]; intros s; simpl.
  - destruct (body i s); reflexivity.
  - destruct (body j s) as [s'|e]; simpl; [apply IH | reflexivity].
Qed.

Lemma pred_index_Ok (yhat : prediction) (i : nat) :
  yhat <> POne None -> exists c, pred_index yhat i = Ok c.
Proof.
  destruct yhat as [[[z|s]|]|cs]; simpl; intros H; eauto. congruence.
Qed.

(** The loop of [score] counts, one by one, the agreeing positions. *)
Lemma score_loop (yhat : prediction) (ys : list label) (k : nat) :
  yhat <> POne None \/ k = 0 ->
  for_each (seq 0 k) (score_step yhat ys) (Fin 0)
  = Ok (of_nat (count_upto (agree yhat ys) k)).
Proof.
  induction k as [|k IH]; intros Hy.
  - simpl. unfold of_nat. simpl. reflexivity.
  - destruct Hy as [Hy|Hy]; [|discriminate].
    rewrite seq_S, for_each_snoc, IH by (left; exact Hy). simpl.
    unfold score_step, agree.
    destruct (pred_index_Ok yhat k Hy) as [c ->]. simpl.
    destruct (strict_eq c (ys !! k)); unfold of_nat; simpl; do 2 f_equal.
    + rewrite plus_INR. simpl. reflexivity.
    + rewrite Nat.add_0_r. reflexivity.
Qed.

Lemma count_upto_le (f : nat -> bool) (k : nat) : count_upto f k <= k.
Proof. induction k as [|k IH]; simpl; [lia|]. destruct (f k); lia. Qed.

Lemma count_upto_bound (f : nat -> bool) (k b : nat) :
  (forall i, b <= i -> i < k -> f i = false) -> count_upto f k <= b.
Proof.
  intros Hf. induction k as [|k IH]; simpl; [lia|].
  assert (IH' : count_upto f k <= b) by (apply IH; intros; apply Hf; lia).
  destruct (f k) eqn:Hk; [|lia].
  destruct (decide (b <= k)) as [Hb|Hb]; [rewrite Hf in Hk by lia; discriminate|].
  pose proof (count_upto_le f k). lia.
Qed.

Lemma ratio_in_unit_interval (c k : nat) :
  c <= k -> 0 < k -> in_unit_interval (ndiv (of_nat c) (of_nat k)).
Proof.
  intros Hc Hk. unfold of_nat, ndiv.
  assert (Hpos : (0 < INR k)%R) by (apply lt_0_INR; exact Hk).
  assert (Hck : (0 <= INR c <= INR k)%R)
    by (split; [apply pos_INR | apply le_INR; exact Hc]).
  destruct (decide (INR k = 0%R)) as [Hz|_]; [lra|].
  exists (INR c / INR k)%R. split; [reflexivity|]. split.
  - apply Rmult_le_pos; [lra|]. left. apply Rinv_0_lt_compat. lra.
  - apply (Rmult_le_reg_r (INR k)); [lra|]. field_simplify; lra.
Qed.

Lemma ratio_zero_zero : ndiv (of_nat 0) (of_nat 0) = NaN.
Proof.
  unfold of_nat, ndiv. simpl.
  destruct (decide (0%R = 0%R)) as [_|H]; [|congruence].
  unfold Rsgn. destruct (decide (0 < 0)%R) as [H|_]; [lra|].
  destruct (decide (0 < 0)%R) as [H|_]; [lra|]. reflexivity.
Qed.

Lemma score_arraylike (predict : input -> prediction) (x : input) (ys : list label) :
  isArrayLike x = true ->
  predict x <> POne None \/ ys = [] ->
  score predict x (YArr ys)
  = Ok (ndiv (of_nat (matches (predict x) ys)) (of_nat (length ys))).
Proof.
  intros Hx Hy. unfold score. rewrite Hx. simpl.
  rewrite score_loop; [reflexivity|].
  destruct Hy as [Hy| ->]; [left; exact Hy | right; reflexivity].
Qed.

Lemma score_not_arraylike (predict : input -> prediction) (x : input) (y : labels) :
  isArrayLike x = false \/ isArrayLike_labels y = false ->
  exists msg, score predict x y = Throw (TypeError msg).
Proof.
  unfold score. intros [H|H]; rewrite H; simpl; [eauto|].
  destruct (isArrayLike x); simpl; eauto.
Qed.

Lemma score_contract_intro (predict : input -> prediction) :
  (forall x, predict x <> POne None) -> score_contract predict.
Proof.
  intros Hp x y. split; [apply score_not_arraylike|].
  intros ys Hx ->. rewrite score_arraylike by (auto using Hp).
  split; [reflexivity|]. split.
  - intros Hne. eexists. split; [reflexivity|].
    apply ratio_in_unit_interval; [apply count_upto_le|].
    destruct ys; [congruence | simpl; lia].
  - intros ->. unfold matches. simpl. f_equal. apply ratio_zero_zero.
Qed.

Lemma Multinomial_predict_defined (this : Multinomial.model) (x : input) :
  Multinomial.classes this <> [] -> Multinomial.predict this x <> POne None.
Proof.
  intros Hne H. unfold Multinomial.predict in H.
  destruct (convert x) as [v|r|m|a]; try discriminate;
    match type of H with
    | POne (Multinomial.predictOne _ ?w) = _ =>
        destruct (Multinomial_predictOne_argmax this w Hne) as (k & c & _ & _ & Hc)
    end; rewrite Hc in H; discriminate.
Qed.

Lemma Gaussian_predict_defined (this : Gaussian.model) (x : input) :
  Gaussian.classes this <> [] -> Gaussian.predict this x <> POne None.
Proof.
  intros Hne H. unfold Gaussian.predict in H.
  destruct (convert x) as [v|r|m|a]; try discriminate;
    match type of H with
    | POne (Gaussian.predictOne _ ?w) = _ =>
        destruct (Gaussian_predictOne_argmax this w Hne) as (k & c & _ & _ & Hc)
    end; rewrite Hc in H; discriminate.
Qed.

(** C3 (amended).  For both models with at least one class, [score]
    throws a [TypeError] when [x] or [y] is not array-like; otherwise it
    returns the count of indices [k] of [y] where [predict( x )[ k ]]
    equals [y[ k ]], divided by the length of [y].  For a non-empty [y]
    that value lies in [[0,1]]; for an empty [y] it is NaN. *)
Theorem score_mean_accuracy :
  (forall this : Multinomial.model,
     Multinomial.classes this <> [] -> score_contract (Multinomial.predict this)) /\
  (forall this : Gaussian.model,
     Gaussian.classes this <> [] -> score_contract (Gaussian.predict this)).
Proof.
  split; intros this Hne; apply score_contract_intro; intros x.
  - apply Multinomial_predict_defined, Hne.
  - apply Gaussian_predict_defined, Hne.
Qed.

Lemma spec_fit_classes : Multinomial.classes spec_fit = [LNum 0; LNum 1].
Proof. reflexivity. Qed.

Lemma score_mean_accuracy_witness : score_contract (Multinomial.predict spec_fit).
Proof.
  apply (proj1 score_mean_accuracy spec_fit).
  rewrite spec_fit_classes. discriminate.
Defined.

Lemma NaN_not_in_unit_interval : ~ in_unit_interval NaN.
Proof. intros (r & Hr & _). discriminate. Qed.

(** C3 as stated fails on an empty label array: the fitted model of the
    spec's own dataset, scored on no observation and no label, yields
    [0 / 0], which is NaN and not a number of [[0,1]]. *)
Lemma score_empty_labels_NaN :
  Multinomial_score spec_fit (InVec []) (YArr []) = Ok NaN /\
  ~ in_unit_interval NaN.
Proof.
  split; [|apply NaN_not_in_unit_interval].
  unfold Multinomial_score.
  rewrite score_arraylike by (reflexivity || (right; reflexivity)).
  unfold matches. simpl. f_equal. apply ratio_zero_zero.
Qed.

(** On a matrix, a position of [y] without a prediction never agrees. *)
Lemma matches_matrix_bound (cs : list (option label)) (ys : list label) :
  matches (PMany cs) ys <= Nat.min (length cs) (length ys).
Proof.
  unfold matches. apply Nat.min_glb; [|apply count_upto_le].
  apply count_upto_bound. intros i Hge Hlt. unfold agree. simpl.
  rewrite (lookup_ge_None_2 cs i) by lia. simpl.
  destruct (lookup_lt_is_Some_2 ys i Hlt) as [c ->].
  unfold strict_eq. apply bool_decide_eq_false. discriminate.
Qed.

Lemma score_unchecked_intro (predict : input -> prediction)
    (predictOne : list num -> option label) :
  (forall m, predict (InMat m) = PMany (row_predictions predictOne m)) ->
  score_unchecked predict predictOne.
Proof.
  intros Hm m ys. split; [apply Hm|]. split; [apply row_predictions_length|].
  split.
  - apply score_arraylike; [reflexivity|]. left. rewrite Hm. discriminate.
  - rewrite Hm. rewrite <- (row_predictions_length predictOne m).
    apply matches_matrix_bound.
Qed.

(** C2 (amended).  For both models, [score] never compares the number
    of predictions with the length of [y] and raises no error when they
    differ: on a matrix of observations it returns the number of
    positions [k] of [y] at which [predict( x )[ k ] === y[ k ]], divided
    by the length of [y]; only positions below both lengths can agree. *)
Theorem score_length_unchecked :
  (forall this : Multinomial.model,
     score_unchecked (Multinomial.predict this) (Multinomial.predictOne this)) /\
  (forall this : Gaussian.model,
     score_unchecked (Gaussian.predict this) (Gaussian.predictOne this)).
Proof.
  split; intros this; apply score_unchecked_intro.
  - apply Multinomial_predict_matrix.
  - apply Gaussian_predict_matrix.
Qed.

Lemma one_class_fit_classes : Multinomial.classes one_class_fit = [LNum 0].
Proof. reflexivity. Qed.

Lemma one_class_fit_predictOne (x : list num) :
  Multinomial.predictOne one_class_fit x = Some (LNum 0).
Proof.
  destruct (Multinomial_predictOne_argmax one_class_fit x)
    as (k & c & (Hk & _) & Hc & ->).
  - rewrite one_class_fit_classes. discriminate.
  - rewrite one_class_fit_classes in Hk, Hc. simpl in Hk.
    destruct k as [|k]; [simpl in Hc; congruence | lia].
Qed.

(** C2 as stated fails: one observation scored against two labels gives
    one prediction for two labels, and [score] returns 1/2 instead of
    raising an error. *)
Lemma score_mismatch_returns :
  Multinomial.predict one_class_fit (InMat (Matrix 1 2 [[Fin 2; Fin 0]]))
  = PMany [Some (LNum 0)] /\
  Multinomial_score one_class_fit (InMat (Matrix 1 2 [[Fin 2; Fin 0]]))
    (YArr [LNum 0; LNum 0])
  = Ok (Fin (1 / 2)).
Proof.
  assert (Hp : Multinomial.predict one_class_fit (InMat (Matrix 1 2 [[Fin 2; Fin 0]]))
               = PMany [Some (LNum 0)]).
  { rewrite Multinomial_predict_matrix. simpl.
    rewrite one_class_fit_predictOne. reflexivity. }
  split; [exact Hp|].
  unfold Multinomial_score. rewrite score_arraylike; [|reflexivity|left; rewrite Hp; discriminate].
  rewrite Hp. unfold matches, agree. simpl.
  unfold of_nat, ndiv. simpl.
  destruct (decide ((1 + 1)%R = 0%R)) as [H|_]; [lra|].
  repeat f_equal; lra.
Qed.

(** ** Matrices *)

Lemma mat_wf_zeros (r c : nat) : mat_wf r c (matrix_zeros r c).
Proof.
  split; simpl; [apply length_replicate|].
  apply Forall_replicate, length_replicate.
Qed.

Lemma mat_wf_set (r c : nat) (m : matrix) (i j : nat) (v : num) :
  mat_wf r c m -> mat_wf r c (mat_set m i j v).
Proof.
  intros [Hr Hc]. split; simpl; [rewrite length_alter; exact Hr|].
  apply Forall_alter; [exact Hc|].
  intros row _ Hrow. rewrite length_insert. exact Hrow.
Qed.

Lemma mat_get_set_eq (r c : nat) (m : matrix) (i j : nat) (v : num) :
  mat_wf r c m -> i < r -> j < c -> mat_get (mat_set m i j v) i j = v.
Proof.
  intros [Hr Hc] Hi Hj. unfold mat_get, mat_row, mat_set, vec_get. simpl.
  rewrite list_lookup_alter_eq.
  destruct (lookup_lt_is_Some_2 (rows m) i) as [row Hrow]; [lia|].
  rewrite Hrow. simpl.
  rewrite list_lookup_insert_eq; [reflexivity|].
  rewrite (Forall_lookup_1 _ _ _ _ Hc Hrow). exact Hj.
Qed.

Lemma mat_get_set_ne (m : matrix) (i j i' j' : nat) (v : num) :
  i' <> i \/ j' <> j -> mat_get (mat_set m i j v) i' j' = mat_get m i' j'.
Proof.
  intros Hne. unfold mat_get, mat_row, mat_set, vec_get. simpl.
  destruct (decide (i = i')) as [->|Hi].
  - destruct Hne as [Hne|Hne]; [congruence|].
    rewrite list_lookup_alter_eq. destruct (rows m !! i') as [row|]; simpl; [|reflexivity].
    rewrite list_lookup_insert_ne by congruence. reflexivity.
  - rewrite list_lookup_alter_ne by exact Hi. reflexivity.
Qed.

(** The loop that writes column [i], row after row. *)
Lemma set_column_wf (r c : nat) (cp : matrix) (i t : nat) (f : nat -> num) :
  mat_wf r c cp ->
  mat_wf r c (for_loop t (fun j cp => mat_set cp j i (f j)) cp).
Proof.
  intros Hwf. induction t as [|t IH]; [exact Hwf|].
  rewrite for_loop_S. apply mat_wf_set, IH.
Qed.

Lemma set_column_get (r c : nat) (cp : matrix) (i t : nat) (f : nat -> num) (j' i' : nat) :
  mat_wf r c cp -> i < c -> t <= r ->
  mat_get (for_loop t (fun j cp => mat_set cp j i (f j)) cp) j' i'
  = if decide (i' = i /\ j' < t) then f j' else mat_get cp j' i'.
Proof.
  intros Hwf Hi. induction t as [|t IH]; intros Ht.
  - simpl. destruct (decide (i' = i /\ j' < 0)) as [[_ H]|_]; [lia | reflexivity].
  - rewrite for_loop_S.
    destruct (decide (i' = i /\ j' = t)) as [[-> ->]|Hne].
    + rewrite (mat_get_set_eq r c) by (try apply set_column_wf; auto; lia).
      destruct (decide (i = i /\ t < S t)) as [_|H]; [reflexivity|lia].
    + rewrite mat_get_set_ne by lia. rewrite IH by lia.
      destruct (decide (i' = i /\ j' < t)) as [H|H];
        destruct (decide (i' = i /\ j' < S t)) as [H'|H']; try reflexivity; lia.
Qed.

(** Writing every index of a preallocated typed array. *)
Lemma insert_prefix {A : Type} (d : A) (k t : nat) (g : nat -> A) :
  t <= k ->
  for_loop t (fun j l => <[j := g j]> l) (replicate k d)
  = map g (seq 0 t) ++ replicate (k - t) d.
Proof.
  induction t as [|t IH]; intros Ht.
  - simpl. rewrite Nat.sub_0_r. reflexivity.
  - rewrite for_loop_S, IH by lia.
    replace (k - t) with (S (k - S t)) by lia.
    rewrite seq_S, map_app. simpl.
    rewrite <- app_assoc. simpl.
    replace t with (length (map g (seq 0 t)) + 0) at 1
      by (rewrite length_map, length_seq; lia).
    rewrite insert_app_r. reflexivity.
Qed.

Lemma mat_data_column (x : matrix) (ids : list nat) (j : nat) :
  mat_data (mat_mget_col x ids j) = map (fun r => mat_get x r j) ids.
Proof.
  unfold mat_data, mat_mget_col. simpl.
  induction ids as [|r ids IH]; simpl; [reflexivity|]. rewrite IH. reflexivity.
Qed.

(** ** Fitting the multinomial model *)

Lemma class_ids_filter (n : nat) (y : list label) (c : option label) :
  class_ids n y c = filter (fun j => y !! j = c) (seq 0 n).
Proof.
  unfold class_ids. induction n as [|n IH]; [reflexivity|].
  rewrite for_loop_S, IH, seq_S, filter_app. simpl.
  rewrite filter_cons, filter_nil. unfold strict_eq.
  destruct (decide (y !! n = c)) as [H|H].
  - rewrite bool_decide_eq_true_2 by exact H. reflexivity.
  - rewrite bool_decide_eq_false_2 by exact H. rewrite app_nil_r. reflexivity.
Qed.

Lemma class_ids_rows (n : nat) (y : list label) (c : label) :
  class_ids n y (Some c) = class_rows n y c.
Proof. apply class_ids_filter. Qed.

Lemma class_counts_stored (this : Multinomial.model) (x : matrix) (ids : list nat) :
  Multinomial.class_counts this x ids
  = map (stored_count x ids) (seq 0 (Multinomial.p this)).
Proof.
  unfold Multinomial.class_counts.
  rewrite (for_loop_ext _ _ (fun j l => <[j := stored_count x ids j]> l))
    by (intros j l _; unfold stored_count, feature_count;
        rewrite mat_data_column; reflexivity).
  rewrite insert_prefix by lia. rewrite Nat.sub_diag. apply app_nil_r.
Qed.

Lemma count_get_stored (this : Multinomial.model) (x : matrix) (ids : list nat) (j : nat) :
  j < Multinomial.p this ->
  Multinomial.count_get (Multinomial.class_counts this x ids) j
  = of_Z (stored_count x ids j).
Proof.
  intros Hj. unfold Multinomial.count_get.
  rewrite class_counts_stored, list_lookup_fmap, lookup_seq_lt by exact Hj.
  reflexivity.
Qed.

(** The parameters one turn of the class loop writes. *)
Lemma fit_class_fst (this : Multinomial.model) (x : matrix) (y : list label) (i : nat)
    (st : gmap string num * matrix) :
  fst (Multinomial.fit_class this x y i st)
  = <[key (Multinomial.classes this !! i) :=
        spec_prior (length (class_ids (Multinomial.n this) y (Multinomial.classes this !! i)))
          (Multinomial.n this)]> (fst st).
Proof. reflexivity. Qed.

Lemma fit_class_snd (this : Multinomial.model) (x : matrix) (y : list label) (i : nat)
    (st : gmap string num * matrix) :
  snd (Multinomial.fit_class this x y i st)
  = for_loop (Multinomial.p this)
      (fun j cp =>
         mat_set cp j i
           (stored_cprob x (class_ids (Multinomial.n this) y (Multinomial.classes this !! i))
              (Multinomial.p this) (Multinomial.alpha this) j))
      (snd st).
Proof.
  unfold Multinomial.fit_class. cbn [snd].
  apply for_loop_ext. intros j cp Hj.
  unfold stored_cprob. rewrite count_get_stored by exact Hj.
  rewrite class_counts_stored, map_map. reflexivity.
Qed.

Lemma fit_loop_cprob (this : Multinomial.model) (x : matrix) (y : list label)
    (st : gmap string num * matrix) (c t : nat) :
  mat_wf (Multinomial.p this) c (snd st) -> t <= c ->
  mat_wf (Multinomial.p this) c (snd (for_loop t (Multinomial.fit_class this x y) st)) /\
  forall j i, j < Multinomial.p this -> i < t ->
    mat_get (snd (for_loop t (Multinomial.fit_class this x y) st)) j i
    = stored_cprob x (class_ids (Multinomial.n this) y (Multinomial.classes this !! i))
        (Multinomial.p this) (Multinomial.alpha this) j.
Proof.
  intros Hwf. induction t as [|t IH]; intros Ht.
  - split; [exact Hwf|]. intros j i _ Hi. lia.
  - destruct IH as [IHwf IHget]; [lia|].
    rewrite for_loop_S, fit_class_snd. split; [apply set_column_wf, IHwf|].
    intros j i Hj Hi.
    rewrite (set_column_get (Multinomial.p this) c) by (auto; lia).
    destruct (decide (i = t /\ j < Multinomial.p this)) as [[-> _]|Hne];
      [reflexivity|].
    apply IHget; lia.
Qed.

Lemma fit_loop_prior (this : Multinomial.model) (x : matrix) (y : list label)
    (st : gmap string num * matrix) (c : label) (t : nat) :
  (forall i, i < t -> key (Multinomial.classes this !! i) = key (Some c) ->
             Multinomial.classes this !! i = Some c) ->
  (exists i, i < t /\ Multinomial.classes this !! i = Some c) ->
  fst (for_loop t (Multinomial.fit_class this x y) st) !! key (Some c)
  = Some (spec_prior (length (class_rows (Multinomial.n this) y c)) (Multinomial.n this)).
Proof.
  induction t as [|t IH]; intros Hkey (i & Hi & Hc); [lia|].
  rewrite for_loop_S, fit_class_fst.
  destruct (decide (key (Multinomial.classes this !! t) = key (Some c))) as [Hk|Hk].
  - rewrite (Hkey t) in * by (lia || exact Hk).
    rewrite lookup_insert_eq, class_ids_rows. reflexivity.
  - rewrite lookup_insert_ne by exact Hk.
    apply IH; [intros i' Hi'; apply Hkey; lia|].
    exists i. split; [|exact Hc].
    destruct (decide (i = t)) as [->|Hne]; [|lia].
    rewrite Hc in Hk. congruence.
Qed.

(** The parameters of a fitted multinomial model, as the code computes
    them (the counts go through the 32-bit conversion). *)
Lemma MultinomialFit_parameters (x : matrix) (y : list label) (alpha : num)
    (i : nat) (c : label) :
  Multinomial.classes (Multinomial.MultinomialFit x y alpha) !! i = Some c ->
  (forall j, j < shape1 x ->
     mat_get (Multinomial.cprob (Multinomial.MultinomialFit x y alpha)) j i
     = stored_cprob x (class_rows (shape0 x) y c) (shape1 x) alpha j) /\
  ((forall c', c' ∈ Multinomial.classes (Multinomial.MultinomialFit x y alpha) ->
               key (Some c') = key (Some c) -> c' = c) ->
   prop_get (Multinomial.prior (Multinomial.MultinomialFit x y alpha)) (Some c)
   = spec_prior (length (class_rows (shape0 x) y c)) (shape0 x)).
Proof.
  simpl. intros Hc.
  assert (Hi : i < length (compute_unique y)) by (eapply lookup_lt_Some; exact Hc).
  split.
  - intros j Hj.
    match goal with
    | |- mat_get (snd (for_loop _ (Multinomial.fit_class ?this _ _) ?st)) _ _ = _ =>
        destruct (fit_loop_cprob this x y st (length (compute_unique y))
                    (length (compute_unique y))) as [_ Hget];
          [apply mat_wf_zeros | lia |];
          rewrite (Hget j i) by (simpl; assumption)
    end.
    simpl. rewrite Hc, class_ids_rows. reflexivity.
  - intros Hkey. unfold prop_get.
    match goal with
    | |- default _ (fst (for_loop ?t (Multinomial.fit_class ?this _ _) ?st) !! _) = _ =>
        rewrite (fit_loop_prior this x y st c t)
    end; [reflexivity | |].
    + simpl. intros i' Hi' Hk.
      destruct (lookup_lt_is_Some_2 (compute_unique y) i' Hi') as [c' Hc'].
      rewrite Hc' in *. f_equal. apply Hkey; [|exact Hk].
      apply list_elem_of_lookup. exists i'. exact Hc'.
    + exists i. split; [exact Hi | exact Hc].
Qed.


Lemma Rtrunc_IZR (z : Z) : Rtrunc (IZR z) = z.
Proof.
  unfold Rtrunc. destruct (decide (0 <= IZR z)%R) as [_|_].
  - apply ZfloorZ.
  - rewrite ZfloorNZ. lia.
Qed.

Lemma ToInt32_of_Z (z : Z) : ToInt32 (of_Z z) = wrap32 z.
Proof. unfold ToInt32, of_Z. rewrite Rtrunc_IZR. reflexivity. Qed.




(** Why the prior needs an unshared key: with the labels [1, 1, "1"]
    the two classes write the same property, and the prior read for the
    class [1], which labels two rows of three, is that of the class
    ["1"], [ln( 1 / 3 )]. *)
Lemma prior_shared_key :
  Multinomial.classes mixed_fit = [LNum 1; LStr "1"] /\
  length (class_rows 3 mixed_y (LNum 1)) = 2 /\
  prop_get (Multinomial.prior mixed_fit) (Some (LNum 1)) = spec_prior 1 3 /\
  spec_prior 1 3 <> spec_prior 2 3.
Proof.
  split; [reflexivity|]. split; [reflexivity|]. split.
  - unfold mixed_fit, Multinomial.MultinomialFit, Multinomial.fitMultinomial.
    cbn [Multinomial.prior Multinomial.nclass]. unfold prop_get.
    change (length (compute_unique mixed_y)) with 2.
    rewrite !for_loop_S, !fit_class_fst. cbn [Multinomial.classes Multinomial.n].
    change (key (compute_unique mixed_y !! 1)) with (key (Some (LNum 1))).
    rewrite lookup_insert_eq. reflexivity.
  - unfold spec_prior, of_nat, ndiv, Math_log. simpl. decide_reals.
    intros Heq. injection Heq as Heq.
    assert (Hlt : (ln (1 / (1 + 1 + 1)) < ln ((1 + 1) / (1 + 1 + 1)))%R)
      by (apply ln_increasing; lra).
    lra.
Qed.


(** ** Sums of numbers *)

Lemma nadd_assoc (x y z : num) : nadd x (nadd y z) = nadd (nadd x y) z.
Proof.
  destruct x as [| | |a], y as [| | |b], z as [| | |c]; simpl;
    try reflexivity. f_equal. lra.
Qed.

Lemma nadd_0_r (x : num) : nadd x (Fin 0) = x.
Proof. destruct x as [| | |a]; simpl; try reflexivity. f_equal. lra. Qed.

Lemma nadd_NaN_r (x : num) : nadd x NaN = NaN.
Proof. destruct x; reflexivity. Qed.

(** A loop that adds one term per turn to an initial value computes the
    initial value plus the sum of the terms. *)
Lemma accumulate_sum (f : nat -> num) (k : nat) (init : num) :
  for_loop k (fun j res => nadd res (f j)) init = nadd init (big_sum f k).
Proof.
  unfold for_loop, big_sum. generalize (seq 0 k) as l. intros l. revert init.
  induction l as [|j l IH]; intros init; simpl.
  - symmetry. apply nadd_0_r.
  - rewrite IH, nadd_assoc. reflexivity.
Qed.

(** C5.  For every Gaussian model, observation [v] and class index [i],
    the log-likelihood [calcGaussianProb] computes, the one every
    prediction of the model uses, is
    [prior[classes[i]] + Σ_j ( -0.5·ln(2π)·sigma[j][i]
                                - 0.5·(v[j] - mu[j][i]) / sigma[j][i] )]:
    the formula of the specification, with [sigma] as a factor and the
    residual neither squared nor divided by the variance. *)
Theorem calcGaussianProb_formula (this : Gaussian.model) (v : list num) (i : nat) :
  Gaussian.calcGaussianProb this v i = gaussian_loglik_spec this v i.
Proof.
  unfold Gaussian.calcGaussianProb, gaussian_loglik_spec.
  apply (accumulate_sum
           (fun j => Gaussian.gauss_term (vec_get v j)
                       (mat_get (Gaussian.mu this) j i)
                       (mat_get (Gaussian.sigma this) j i))).
Qed.

(** The multinomial log-likelihood with the test on the feature value,
    as [predictOne], [predict] and the matrix case of [predictProbs]
    compute it, is the formula of the specification on an observation
    without NaN (which the test takes for false, and [!=] for non-zero). *)
Lemma calcMultinomProb_formula (this : Multinomial.model) (v : list num) (i : nat) :
  (forall j, j < Multinomial.p this -> vec_get v j <> NaN) ->
  Multinomial.calcMultinomProb this v i = multinomial_loglik_spec this v i.
Proof.
  intros Hv.
  unfold Multinomial.calcMultinomProb, Multinomial.loglik, multinomial_loglik_spec.
  rewrite <- (accumulate_sum
                (fun j => if ne0 (vec_get v j)
                          then nmul (vec_get v j) (mat_get (Multinomial.cprob this) j i)
                          else Fin 0)).
  apply for_loop_ext. intros j res Hj. specialize (Hv j Hj).
  destruct (vec_get v j); try reflexivity. congruence.
Qed.

(** ** The log-likelihood inside [predictProbs] *)

(** Filling the array that [predictProbs] allocated with one element. *)
Lemma collect_loop_preallocated {A : Type} (k : nat) (f : nat -> option A) :
  0 < k ->
  for_loop k (fun i ret => arr_set None ret i (f i)) [None] = map f (seq 0 k).
Proof.
  intros Hk. destruct k as [|k]; [lia|]. clear Hk.
  induction k as [|k IH]; [reflexivity|].
  rewrite for_loop_S, IH. rewrite (seq_S (S k)), map_app. simpl.
  replace (S k) with (length (f 0 :: map f (seq 1 k))) at 1
    by (simpl; rewrite length_map, length_seq; reflexivity).
  apply (arr_set_end None (f 0 :: map f (seq 1 k))).
Qed.

(** On a matrix with at least one row, [predictProbs] normalises for
    each row the log-likelihoods that [predict] uses. *)
Lemma Multinomial_predictProbs_matrix (this : Multinomial.model) (m : matrix) :
  0 < shape0 m ->
  Multinomial.predictProbs this (InMat m)
  = QMany (map (fun i => Some (normalize
                                 (fill_array (Multinomial.nclass this)
                                    (Multinomial.calcMultinomProb this (mat_row m i)))))
             (seq 0 (shape0 m))).
Proof.
  intros Hm. unfold Multinomial.predictProbs. simpl. f_equal.
  apply (collect_loop_preallocated (shape0 m)
           (fun i => Some (normalize
                             (fill_array (Multinomial.nclass this)
                                (Multinomial.calcMultinomProb this (mat_row m i)))))).
  exact Hm.
Qed.

(** Where the missing test cannot be seen: on finite features and
    finite parameters a zero feature contributes [0 * cprob = 0]. *)
Lemma loglik_untested_finite (this : Multinomial.model) (get : nat -> num) (i : nat) :
  (forall j, j < Multinomial.p this ->
     is_finite (get j) = true /\
     is_finite (mat_get (Multinomial.cprob this) j i) = true) ->
  Multinomial.loglik_untested this get i = Multinomial.loglik this get i.
Proof.
  intros Hfin. unfold Multinomial.loglik_untested, Multinomial.loglik.
  apply for_loop_ext. intros j res Hj. destruct (Hfin j Hj) as [Hv Hc].
  destruct (get j) as [| | |r]; try discriminate.
  destruct (mat_get (Multinomial.cprob this) j i) as [| | |c]; try discriminate.
  simpl. destruct (bool_decide_reflect (r <> 0%R)) as [_|H0]; [reflexivity|].
  do 2 f_equal. destruct (decide (r = 0%R)) as [->|Hr]; [lra | contradiction].
Qed.

Lemma degenerate_fit_shape :
  Multinomial.p degenerate_fit = 2 /\
  Multinomial.nclass degenerate_fit = 1 /\
  Multinomial.classes degenerate_fit = [LNum 0].
Proof. repeat split. Qed.

Lemma degenerate_fit_parameters :
  prop_get (Multinomial.prior degenerate_fit) (Some (LNum 0)) = Fin (ln (1 / 1)) /\
  mat_get (Multinomial.cprob degenerate_fit) 0 0 = NInf /\
  mat_get (Multinomial.cprob degenerate_fit) 1 0
  = Fin (ln (5 + - 1) - ln (1 + 5 + 2 * - 1)).
Proof.
  destruct (MultinomialFit_parameters (toMatrix [[Fin 1; Fin 5]]) [LNum 0] (Fin (- 1))
              0 (LNum 0)) as [Hcp Hpr]; [reflexivity|].
  assert (Hrows : class_rows (shape0 (toMatrix [[Fin 1; Fin 5]])) [LNum 0] (LNum 0) = [0])
    by reflexivity.
  assert (Hst0 : stored_count (toMatrix [[Fin 1; Fin 5]]) [0] 0 = 1%Z).
  { unfold stored_count.
    replace (feature_count (toMatrix [[Fin 1; Fin 5]]) [0] 0) with (of_Z 1)
      by (vm_compute; f_equal; lra).
    rewrite ToInt32_of_Z. reflexivity. }
  assert (Hst1 : stored_count (toMatrix [[Fin 1; Fin 5]]) [0] 1 = 5%Z).
  { unfold stored_count.
    replace (feature_count (toMatrix [[Fin 1; Fin 5]]) [0] 1) with (of_Z 5)
      by (vm_compute; f_equal; lra).
    rewrite ToInt32_of_Z. reflexivity. }
  unfold degenerate_fit. split; [|split].
  - rewrite Hpr.
    + rewrite Hrows. unfold spec_prior, of_nat, ndiv, Math_log. simpl.
      decide_reals. reflexivity.
    + intros c' Hc'. change (Multinomial.classes _) with [LNum 0] in Hc'.
      inversion Hc' as [|? ? ? Hc'']; subst; [reflexivity | inversion Hc''].
  - rewrite Hcp by (simpl; lia). rewrite Hrows.
    unfold stored_cprob. simpl. rewrite Hst0, Hst1. unfold of_Z. simpl.
    decide_reals. reflexivity.
  - rewrite Hcp by (simpl; lia). rewrite Hrows.
    unfold stored_cprob. simpl. rewrite Hst0, Hst1. unfold of_Z. simpl.
    decide_reals. simpl.
    replace (0 + 1 + 5 + (1 + 1) * -1)%R with (1 + 5 + 2 * -1)%R by lra.
    reflexivity.
Qed.

(** C6 (the code departs from the claim).  In its single-observation
    case [predictProbs] multiplies every feature by the parameter
    without testing the feature first.  On the model fitted from the
    one document [[1, 5]] with [alpha = -1], whose [cprob[ 0 ][ 0 ]] is
    -Infinity, and the observation [[0, 1]]: the formula of the
    specification gives a finite log-likelihood, [predict] and the
    matrix case of [predictProbs] use exactly that value, but the
    single-observation case computes [0 * -Infinity], so its
    log-likelihood and the probability it returns are NaN. *)
Theorem predictProbs_single_untested :
  Multinomial.predictProbs degenerate_fit (InVec [Fin 0; Fin 1]) = QOne [NaN] /\
  Multinomial.loglik_untested degenerate_fit (vec_get [Fin 0; Fin 1]) 0 = NaN /\
  is_finite (multinomial_loglik_spec degenerate_fit [Fin 0; Fin 1] 0) = true /\
  Multinomial.calcMultinomProb degenerate_fit [Fin 0; Fin 1] 0
  = multinomial_loglik_spec degenerate_fit [Fin 0; Fin 1] 0 /\
  Multinomial.predictProbs degenerate_fit (InRows [[Fin 0; Fin 1]])
  = QMany [Some (normalize [multinomial_loglik_spec degenerate_fit [Fin 0; Fin 1] 0])].
Proof.
  destruct degenerate_fit_shape as (Hp & Hn & Hcl).
  destruct degenerate_fit_parameters as (Hpr & Hc0 & Hc1).
  revert Hp Hn Hcl Hpr Hc0 Hc1. generalize degenerate_fit.
  intros this Hp Hn Hcl Hpr Hc0 Hc1.
  assert (Hun : Multinomial.loglik_untested this (vec_get [Fin 0; Fin 1]) 0 = NaN).
  { unfold Multinomial.loglik_untested. rewrite Hp, !for_loop_S, for_loop_0.
    rewrite Hc0. change (vec_get [Fin 0; Fin 1] 0) with (Fin 0). simpl nmul.
    unfold Rsgn. decide_reals. simpl. rewrite nadd_NaN_r. reflexivity. }
  assert (Hv : forall j, j < Multinomial.p this -> vec_get [Fin 0; Fin 1] j <> NaN).
  { rewrite Hp. intros [|[|j]] Hj; [discriminate | discriminate | lia]. }
  assert (Hspec : multinomial_loglik_spec this [Fin 0; Fin 1] 0
                  = Fin (ln (1 / 1) + (0 + (1 * (ln (5 + - 1) - ln (1 + 5 + 2 * - 1)) + 0)))).
  { unfold multinomial_loglik_spec, big_sum. rewrite Hp, Hcl. simpl.
    rewrite Hpr, Hc1. unfold vec_get. simpl.
    rewrite bool_decide_eq_false_2 by lra.
    rewrite bool_decide_eq_true_2 by lra. reflexivity. }
  repeat split.
  - unfold Multinomial.predictProbs. simpl. rewrite Hn, fill_array_map. simpl.
    rewrite Hun. reflexivity.
  - exact Hun.
  - rewrite Hspec. reflexivity.
  - apply calcMultinomProb_formula, Hv.
  - rewrite <- (calcMultinomProb_formula this [Fin 0; Fin 1] 0 Hv).
    change (Multinomial.predictProbs this (InMat (toMatrix [[Fin 0; Fin 1]]))
            = QMany [Some (normalize [Multinomial.calcMultinomProb this [Fin 0; Fin 1] 0])]).
    rewrite Multinomial_predictProbs_matrix by (simpl; lia).
    simpl. rewrite Hn, fill_array_map. reflexivity.
Qed.

(** ** Fitting the Gaussian model *)

Lemma pair_loop {A B : Type} (k : nat) (F : nat -> A -> A) (G : nat -> B -> B)
    (a : A) (b : B) :
  for_loop k (fun j ms => (F j (fst ms), G j (snd ms))) (a, b)
  = (for_loop k F a, for_loop k G b).
Proof.
  induction k as [|k IH]; [reflexivity|].
  rewrite !for_loop_S, IH. reflexivity.
Qed.

Lemma Gaussian_fit_class_snd (this : Gaussian.model) (x : matrix) (y : list label)
    (i : nat) (st : gmap string num * (matrix * matrix)) :
  snd (Gaussian.fit_class this x y i st)
  = (for_loop (Gaussian.p this)
       (fun j m => mat_set m j i
          (compute_mean (column x (class_ids (Gaussian.n this) y (Gaussian.classes this !! i)) j)))
       (fst (snd st)),
     for_loop (Gaussian.p this)
       (fun j m => mat_set m j i
          (compute_stdev (column x (class_ids (Gaussian.n this) y (Gaussian.classes this !! i)) j)))
       (snd (snd st))).
Proof.
  unfold Gaussian.fit_class. cbn [snd].
  destruct st as [pr [m s]]. cbn [fst snd].
  rewrite <- pair_loop. apply for_loop_ext. intros j ms _.
  rewrite mat_data_column. reflexivity.
Qed.

Lemma Gaussian_fit_loop (this : Gaussian.model) (x : matrix) (y : list label)
    (st : gmap string num * (matrix * matrix)) (c t : nat) :
  mat_wf (Gaussian.p this) c (fst (snd st)) ->
  mat_wf (Gaussian.p this) c (snd (snd st)) -> t <= c ->
  mat_wf (Gaussian.p this) c (fst (snd (for_loop t (Gaussian.fit_class this x y) st))) /\
  mat_wf (Gaussian.p this) c (snd (snd (for_loop t (Gaussian.fit_class this x y) st))) /\
  forall j i, j < Gaussian.p this -> i < t ->
    mat_get (fst (snd (for_loop t (Gaussian.fit_class this x y) st))) j i
    = compute_mean (column x (class_ids (Gaussian.n this) y (Gaussian.classes this !! i)) j) /\
    mat_get (snd (snd (for_loop t (Gaussian.fit_class this x y) st))) j i
    = compute_stdev (column x (class_ids (Gaussian.n this) y (Gaussian.classes this !! i)) j).
Proof.
  intros Hmu Hsg. induction t as [|t IH]; intros Ht.
  - split; [exact Hmu|]. split; [exact Hsg|]. intros j i _ Hi. lia.
  - destruct IH as (IHmu & IHsg & IHget); [lia|].
    rewrite for_loop_S, Gaussian_fit_class_snd. cbn [fst snd].
    split; [apply set_column_wf, IHmu|]. split; [apply set_column_wf, IHsg|].
    intros j i Hj Hi.
    rewrite !(set_column_get (Gaussian.p this) c) by (auto; lia).
    destruct (decide (i = t /\ j < Gaussian.p this)) as [[-> _]|Hne];
      [split; reflexivity|].
    apply IHget; lia.
Qed.

(** The means and standard deviations of a fitted Gaussian model. *)
Lemma GaussianFit_parameters (x : matrix) (y : list label) (i : nat) (c : label) (j : nat) :
  Gaussian.classes (Gaussian.GaussianFit x y) !! i = Some c ->
  j < shape1 x ->
  mat_get (Gaussian.mu (Gaussian.GaussianFit x y)) j i
  = compute_mean (column x (class_rows (shape0 x) y c) j) /\
  mat_get (Gaussian.sigma (Gaussian.GaussianFit x y)) j i
  = compute_stdev (column x (class_rows (shape0 x) y c) j).
Proof.
  simpl. intros Hc Hj.
  assert (Hi : i < length (compute_unique y)) by (eapply lookup_lt_Some; exact Hc).
  match goal with
  | |- mat_get (fst (snd (for_loop _ (Gaussian.fit_class ?this _ _) ?st))) _ _ = _ /\ _ =>
      destruct (Gaussian_fit_loop this x y st (length (compute_unique y))
                  (length (compute_unique y))) as (_ & _ & Hget);
        [apply mat_wf_zeros | apply mat_wf_zeros | lia |];
        destruct (Hget j i) as [Hm Hs]; [simpl; assumption | assumption |];
        rewrite Hm, Hs
  end.
  simpl. rewrite Hc, class_ids_rows. split; reflexivity.
Qed.

Lemma Gaussian_fit_class_fst (this : Gaussian.model) (x : matrix) (y : list label) (i : nat)
    (st : gmap string num * (matrix * matrix)) :
  fst (Gaussian.fit_class this x y i st)
  = <[key (Gaussian.classes this !! i) :=
        spec_prior (length (class_ids (Gaussian.n this) y (Gaussian.classes this !! i)))
          (Gaussian.n this)]> (fst st).
Proof. reflexivity. Qed.

Lemma prior_loop_value {B : Type} (F : nat -> gmap string num * B -> gmap string num * B)
    (cl : list label) (P : option label -> num) (c : label) (t : nat)
    (st : gmap string num * B) :
  (forall i s, fst (F i s) = <[key (cl !! i) := P (cl !! i)]> (fst s)) ->
  (forall i, i < t -> key (cl !! i) = key (Some c) -> cl !! i = Some c) ->
  (exists i, i < t /\ cl !! i = Some c) ->
  fst (for_loop t F st) !! key (Some c) = Some (P (Some c)).
Proof.
  intros HF. induction t as [|t IH]; intros Hkey (i & Hi & Hc); [lia|].
  rewrite for_loop_S, HF.
  destruct (decide (key (cl !! t) = key (Some c))) as [Hk|Hk].
  - rewrite (Hkey t) in * by (lia || exact Hk). apply lookup_insert_eq.
  - rewrite lookup_insert_ne by exact Hk.
    apply IH; [intros i' Hi'; apply Hkey; lia|].
    exists i. split; [|exact Hc].
    destruct (decide (i = t)) as [->|Hne]; [|lia].
    rewrite Hc in Hk. congruence.
Qed.

Lemma GaussianFit_prior (x : matrix) (y : list label) (i : nat) (c : label) :
  Gaussian.classes (Gaussian.GaussianFit x y) !! i = Some c ->
  (forall c', c' ∈ Gaussian.classes (Gaussian.GaussianFit x y) ->
              key (Some c') = key (Some c) -> c' = c) ->
  prop_get (Gaussian.prior (Gaussian.GaussianFit x y)) (Some c)
  = spec_prior (length (class_rows (shape0 x) y c)) (shape0 x).
Proof.
  simpl. intros Hc Hkey.
  assert (Hi : i < length (compute_unique y)) by (eapply lookup_lt_Some; exact Hc).
  unfold prop_get.
  match goal with
  | |- default _ (fst (for_loop ?t (Gaussian.fit_class ?this _ _) ?st) !! _) = _ =>
      rewrite (prior_loop_value (Gaussian.fit_class this x y) (compute_unique y)
                 (fun o => spec_prior (length (class_ids (shape0 x) y o)) (shape0 x)) c t st)
  end.
  - simpl. rewrite class_ids_rows. reflexivity.
  - intros k s. apply Gaussian_fit_class_fst.
  - intros i' Hi' Hk.
    destruct (lookup_lt_is_Some_2 (compute_unique y) i' Hi') as [c' Hc'].
    rewrite Hc' in *. f_equal. apply Hkey; [|exact Hk].
    apply list_elem_of_lookup. exists i'. exact Hc'.
  - exists i. split; [exact Hi | exact Hc].
Qed.


Lemma constant_fit_parameters :
  mat_get (Gaussian.mu constant_fit) 0 0 = Fin ((0 + 1 + 1) / (1 + 1)) /\
  mat_get (Gaussian.sigma constant_fit) 0 0 = Fin 0.
Proof.
  destruct (GaussianFit_parameters constant_x [LNum 0; LNum 0] 0 (LNum 0) 0)
    as [Hm Hs]; [reflexivity | simpl; lia |].
  assert (Hcol : column constant_x (class_rows (shape0 constant_x) [LNum 0; LNum 0] (LNum 0)) 0
                 = [Fin 1; Fin 1]) by reflexivity.
  assert (Hmean : compute_mean [Fin 1; Fin 1] = Fin ((0 + 1 + 1) / (1 + 1))).
  { unfold compute_mean, compute_sum, of_nat. simpl. decide_reals. reflexivity. }
  unfold constant_fit. rewrite Hm, Hs, Hcol. split; [exact Hmean|].
  unfold compute_stdev. rewrite Hmean. unfold compute_sum, of_nat. simpl.
  decide_reals.
  replace ((0 + (1 - (0 + 1 + 1) / (1 + 1)) * (1 - (0 + 1 + 1) / (1 + 1))
            + (1 - (0 + 1 + 1) / (1 + 1)) * (1 - (0 + 1 + 1) / (1 + 1))) / (1 + 1 - 1))%R
    with 0%R by (field_simplify; lra).
  unfold Math_sqrt. decide_reals. rewrite sqrt_0. reflexivity.
Qed.





(** ** Normalising the log-likelihoods *)

Section RealSums.

#[local] Open Scope R_scope.

Lemma fold_left_Rplus_shift (l : list R) (a : R) :
  fold_left Rplus l a = (a + fold_left Rplus l 0).
Proof.
  revert a. induction l as [|x l IH]; intros a; simpl; [lra|].
  rewrite (IH (a + x)), (IH (0 + x)). lra.
Qed.

Lemma sum_nonneg (l : list R) :
  Forall (fun x => 0 <= x) l -> (0 <= fold_left Rplus l 0).
Proof.
  induction 1 as [|x l Hx Hl IH]; simpl; [lra|].
  rewrite fold_left_Rplus_shift. lra.
Qed.

Lemma sum_bounds_term (l : list R) (x : R) :
  Forall (fun x => 0 <= x) l -> In x l -> (x <= fold_left Rplus l 0).
Proof.
  induction 1 as [|y l Hy Hl IH]; simpl; [tauto|].
  intros [->|Hin]; rewrite fold_left_Rplus_shift.
  - pose proof (sum_nonneg l Hl). lra.
  - specialize (IH Hin). lra.
Qed.

Lemma sum_scale (l : list R) (c : R) :
  fold_left Rplus (map (fun x => x * c) l) 0 = (fold_left Rplus l 0 * c).
Proof.
  induction l as [|x l IH]; simpl; [lra|].
  rewrite fold_left_Rplus_shift, IH, (fold_left_Rplus_shift l (0 + x)). lra.
Qed.

Lemma sum_exists_positive (l : list R) (x : R) :
  Forall (fun x => 0 <= x) l -> In x l -> 0 < x -> 0 < fold_left Rplus l 0.
Proof.
  intros Hl Hin Hx. pose proof (sum_bounds_term l x Hl Hin). lra.
Qed.

(** Non-negative weights divided by their positive sum lie in [[0,1]]
    and sum to 1. *)
Lemma normalized_weights (ws : list R) :
  Forall (fun x => 0 <= x) ws ->
  0 < fold_left Rplus ws 0 ->
  Forall (fun x => 0 <= x * / fold_left Rplus ws 0 <= 1) ws /\
  fold_left Rplus (map (fun x => x * / fold_left Rplus ws 0) ws) 0 = 1.
Proof.
  intros Hws HS. set (S := fold_left Rplus ws 0) in *.
  assert (Hinv : 0 < / S) by (apply Rinv_0_lt_compat; exact HS). split.
  - apply Forall_forall. intros x Hx.
    assert (Hle : x <= S)
      by (apply sum_bounds_term; [exact Hws | apply list_elem_of_In, Hx]).
    assert (H0 : 0 <= x) by (rewrite Forall_forall in Hws; apply Hws, Hx).
    split; [apply Rmult_le_pos; lra|].
    apply (Rmult_le_reg_r S); [exact HS|]. field_simplify; lra.
  - rewrite sum_scale. fold S. field. lra.
Qed.

End RealSums.

Lemma compute_sum_Fin (rs : list R) :
  compute_sum (map Fin rs) = Fin (fold_left Rplus rs 0%R).
Proof.
  unfold compute_sum. generalize 0%R as a. induction rs as [|r rs IH]; intros a; simpl.
  - reflexivity.
  - apply IH.
Qed.

Lemma normalize_formula (logLik : list num) :
  normalize logLik = map (fun l => Math_exp (nsub l (log_normalizer logLik))) logLik.
Proof.
  unfold normalize, log_normalizer, compute_exp, compute_subtract.
  rewrite !map_map. reflexivity.
Qed.

(** *** Log-likelihoods that are numbers or -Infinity *)

(** The maximum of values none of which is NaN or +Infinity, one at
    least being finite, is finite. *)
Lemma max_fold_number (t : list num) (m : num) :
  Forall (fun v => v <> NaN /\ v <> PInf) t -> m <> NaN -> m <> PInf ->
  is_finite m = true \/ Exists (fun v => is_finite v = true) t ->
  exists a, fold_left (fun m v => if ngt v m then v else m) t m = Fin a.
Proof.
  revert m. induction t as [|v t IH]; intros m Ht Hm1 Hm2 Hex; simpl.
  - destruct Hex as [Hf|Hex]; [|inversion Hex].
    destruct m as [| | |a]; try discriminate. eauto.
  - inversion Ht as [|? ? [Hv1 Hv2] Ht']; subst.
    apply IH; [exact Ht' | destruct (ngt v m); assumption
              | destruct (ngt v m); assumption |].
    destruct Hex as [Hf|Hex].
    + left. destruct m as [| | |b]; try discriminate.
      destruct v as [| | |c]; try congruence; simpl; [reflexivity|].
      destruct (bool_decide (b < c)%R); reflexivity.
    + inversion Hex as [? ? Hf|? ? Hex']; subst; [|right; exact Hex'].
      left. destruct v as [| | |c]; try discriminate.
      destruct m as [| | |b]; try congruence; simpl; [reflexivity|].
      destruct (bool_decide (b < c)%R); reflexivity.
Qed.

Lemma compute_max_number (l : list num) :
  Forall (fun v => v <> NaN /\ v <> PInf) l ->
  Exists (fun v => is_finite v = true) l ->
  exists a, compute_max l = Fin a.
Proof.
  intros Hl Hex. destruct l as [|x t]; [inversion Hex|]. simpl.
  inversion Hl as [|? ? [Hx1 Hx2] Ht]; subst.
  apply max_fold_number; [exact Ht | exact Hx1 | exact Hx2 |].
  inversion Hex; subst; [left | right]; assumption.
Qed.

(** [exp( v - d )] for such a value: a non-negative real, positive when
    [v] is finite. *)
Lemma exp_shift_real (v : num) (d : R) :
  v <> NaN -> v <> PInf ->
  Math_exp (nsub v (Fin d)) = Fin (real_of (Math_exp (nsub v (Fin d)))) /\
  (0 <= real_of (Math_exp (nsub v (Fin d))))%R /\
  (is_finite v = true -> 0 < real_of (Math_exp (nsub v (Fin d))))%R.
Proof.
  intros H1 H2. destruct v as [| | |r]; try congruence; simpl.
  - split; [reflexivity|]. split; [lra | discriminate].
  - pose proof (exp_pos (r - d)). split; [reflexivity|]. split; [lra | auto].
Qed.

Lemma exp_shift_rescale (v : num) (a S : R) :
  v <> NaN -> v <> PInf -> (0 < S)%R ->
  real_of (Math_exp (nsub v (Fin (a + ln S))))
  = (real_of (Math_exp (nsub v (Fin a))) * / S)%R.
Proof.
  intros H1 H2 HS. destruct v as [| | |r]; try congruence; simpl; [lra|].
  replace (r - (a + ln S))%R with ((r - a) + - ln S)%R by lra.
  rewrite exp_plus, exp_Ropp, exp_ln by exact HS. reflexivity.
Qed.

(** The greater the log-likelihood, the greater [exp( v - d )]. *)
Lemma exp_shift_monotone (u v : num) (d : R) :
  u <> NaN -> u <> PInf -> v <> NaN -> v <> PInf -> ngt u v = false ->
  (real_of (Math_exp (nsub u (Fin d))) <= real_of (Math_exp (nsub v (Fin d))))%R.
Proof.
  intros Hu1 Hu2 Hv1 Hv2 Hle.
  destruct u as [| | |r], v as [| | |s]; try congruence; simpl in *; try lra.
  - pose proof (exp_pos (s - d)). lra.
  - apply bool_decide_eq_false in Hle.
    destruct (Req_dec r s) as [->|Hne]; [lra|].
    left. apply exp_increasing. lra.
Qed.

(** What the normalisation computes then: every [exp( v - a )] divided
    by their sum [S], which is positive. *)
Lemma normalize_numbers (l : list num) :
  Forall (fun v => v <> NaN /\ v <> PInf) l ->
  Exists (fun v => is_finite v = true) l ->
  exists a : R,
    (0 < fold_left Rplus (map (fun v => real_of (Math_exp (nsub v (Fin a)))) l) 0)%R /\
    normalize l
    = map (fun v => Fin (real_of (Math_exp (nsub v (Fin a)))
                         * / fold_left Rplus
                               (map (fun v => real_of (Math_exp (nsub v (Fin a)))) l) 0%R))
        l.
Proof.
  intros Hok Hex. rewrite normalize_formula. unfold log_normalizer.
  destruct (compute_max_number l Hok Hex) as [a ->]. exists a.
  assert (Hin : forall v, In v l -> v <> NaN /\ v <> PInf)
    by (intros v Hv; rewrite Forall_forall in Hok; apply Hok, list_elem_of_In, Hv).
  assert (Hmap : forall d, map (fun v => Math_exp (nsub v (Fin d))) l
                           = map Fin (map (fun v => real_of (Math_exp (nsub v (Fin d)))) l)).
  { intros d. rewrite map_map. apply map_ext_in. intros v Hv.
    destruct (Hin v Hv) as [H1 H2]. apply (exp_shift_real v d H1 H2). }
  rewrite Hmap, compute_sum_Fin.
  set (S := fold_left Rplus (map (fun v => real_of (Math_exp (nsub v (Fin a)))) l) 0%R).
  assert (HS : (0 < S)%R).
  { apply Exists_exists in Hex as (v & Hv & Hfin). apply list_elem_of_In in Hv.
    destruct (Hin v Hv) as [H1 H2].
    apply (sum_exists_positive _ (real_of (Math_exp (nsub v (Fin a))))).
    - apply Forall_map, Forall_forall. intros u Hu. apply list_elem_of_In in Hu.
      destruct (Hin u Hu) as [Hu1 Hu2]. apply (exp_shift_real u a Hu1 Hu2).
    - apply (in_map (fun v => real_of (Math_exp (nsub v (Fin a))))), Hv.
    - apply (exp_shift_real v a H1 H2), Hfin. }
  split; [exact HS|].
  unfold Math_log. destruct (decide (0 < S)%R) as [_|H]; [|contradiction].
  simpl nadd. apply map_ext_in. intros v Hv. destruct (Hin v Hv) as [H1 H2].
  rewrite (proj1 (exp_shift_real v (a + ln S) H1 H2)).
  rewrite (exp_shift_rescale v a S H1 H2 HS). reflexivity.
Qed.

Lemma normalize_distribution (l : list num) :
  Forall (fun v => v <> NaN /\ v <> PInf) l ->
  Exists (fun v => is_finite v = true) l ->
  Forall in_unit_interval (normalize l) /\ compute_sum (normalize l) = Fin 1.
Proof.
  intros Hok Hex. destruct (normalize_numbers l Hok Hex) as (a & HS & ->).
  set (w := fun v => real_of (Math_exp (nsub v (Fin a)))) in *.
  assert (Hws : Forall (fun x => 0 <= x)%R (map w l)).
  { apply Forall_map, Forall_forall. intros u Hu.
    rewrite Forall_forall in Hok. destruct (Hok u Hu) as [Hu1 Hu2].
    apply (exp_shift_real u a Hu1 Hu2). }
  destruct (normalized_weights (map w l) Hws HS) as [Hunit Hsum].
  rewrite <- (map_map w (fun x => Fin (x * / fold_left Rplus (map w l) 0%R))).
  rewrite <- (map_map (fun x => (x * / fold_left Rplus (map w l) 0)%R) Fin).
  split.
  - apply Forall_map, Forall_map. eapply Forall_impl; [exact Hunit|].
    intros x Hx. eexists. split; [reflexivity | exact Hx].
  - rewrite compute_sum_Fin. f_equal. exact Hsum.
Qed.

(** *** Log-likelihoods the normalisation turns into NaN *)

Lemma fold_nadd_NaN (l : list num) : fold_left nadd l NaN = NaN.
Proof. induction l as [|x l IH]; [reflexivity | exact IH]. Qed.

Lemma compute_sum_NaN (l : list num) : In NaN l -> compute_sum l = NaN.
Proof.
  unfold compute_sum. generalize (Fin 0) as acc.
  induction l as [|x l IH]; intros acc Hin; [destruct Hin|].
  destruct Hin as [->|Hin]; simpl.
  - rewrite nadd_NaN_r. apply fold_nadd_NaN.
  - apply IH, Hin.
Qed.

Lemma log_normalizer_NaN (l : list num) (v : num) :
  In v l -> nsub v (compute_max l) = NaN -> log_normalizer l = NaN.
Proof.
  intros Hv Hsub. unfold log_normalizer. rewrite compute_sum_NaN.
  - apply nadd_NaN_r.
  - change NaN with (Math_exp NaN). rewrite <- Hsub.
    apply (in_map (fun u => Math_exp (nsub u (compute_max l)))), Hv.
Qed.

Lemma ngt_below (v m r : num) :
  ngt v m = true -> ngt v r = false -> r <> NaN -> ngt m r = false.
Proof.
  destruct v as [| | |a], m as [| | |b], r as [| | |c]; simpl;
    try discriminate; try reflexivity; try congruence.
  rewrite bool_decide_eq_true, !bool_decide_eq_false. lra.
Qed.

Lemma ngt_not_above (v m r : num) :
  ngt v m = false -> ngt m r = false -> m <> NaN -> ngt v r = false.
Proof.
  destruct v as [| | |a], m as [| | |b], r as [| | |c]; simpl;
    try discriminate; try reflexivity; try congruence.
  rewrite !bool_decide_eq_false. lra.
Qed.

Lemma max_fold_NaN (t : list num) :
  fold_left (fun m v => if ngt v m then v else m) t NaN = NaN.
Proof.
  induction t as [|v t IH]; [reflexivity|]. simpl.
  destruct v; exact IH.
Qed.

(** The running maximum, once a number, bounds every value met. *)
Lemma max_fold_bounds (t : list num) (m : num) :
  m <> NaN ->
  fold_left (fun m v => if ngt v m then v else m) t m <> NaN /\
  ngt m (fold_left (fun m v => if ngt v m then v else m) t m) = false /\
  forall v, In v t ->
    ngt v (fold_left (fun m v => if ngt v m then v else m) t m) = false.
Proof.
  revert m. induction t as [|v t IH]; intros m Hm; simpl.
  - split; [exact Hm|]. split; [apply ngt_irrefl | tauto].
  - destruct (ngt v m) eqn:Hgt.
    + destruct (ngt_true_numbers _ _ Hgt) as [Hv _].
      destruct (IH v Hv) as (Hr & Hvr & Ht).
      split; [exact Hr|]. split; [apply (ngt_below v); assumption|].
      intros u [<-|Hu]; [exact Hvr | apply Ht, Hu].
    + destruct (IH m Hm) as (Hr & Hmr & Ht).
      split; [exact Hr|]. split; [exact Hmr|].
      intros u [<-|Hu]; [apply (ngt_not_above v m); assumption | apply Ht, Hu].
Qed.

Lemma max_fold_elem (t : list num) (m : num) :
  fold_left (fun m v => if ngt v m then v else m) t m = m \/
  In (fold_left (fun m v => if ngt v m then v else m) t m) t.
Proof.
  revert m. induction t as [|v t IH]; intros m; simpl; [left; reflexivity|].
  destruct (ngt v m).
  - destruct (IH v) as [->|Hin]; [right; left; reflexivity | right; right; exact Hin].
  - destruct (IH m) as [->|Hin]; [left; reflexivity | right; right; exact Hin].
Qed.

Lemma compute_max_elem (l : list num) : l <> [] -> In (compute_max l) l.
Proof.
  destruct l as [|x t]; [congruence|]. intros _. simpl.
  destruct (max_fold_elem t x) as [->|Hin]; [left; reflexivity | right; exact Hin].
Qed.

Lemma compute_max_upper (l : list num) (v : num) :
  compute_max l <> NaN -> In v l -> ngt v (compute_max l) = false.
Proof.
  destruct l as [|x t]; [intros _ []|]. simpl. intros Hr Hv.
  assert (Hx : x <> NaN) by (intros ->; apply Hr, max_fold_NaN).
  destruct (max_fold_bounds t x Hx) as (_ & Hxr & Ht).
  destruct Hv as [<-|Hv]; [exact Hxr | apply Ht, Hv].
Qed.

(** A NaN or a +Infinity among the log-likelihoods, or nothing but
    -Infinity, makes the normaliser NaN. *)
Lemma log_normalizer_undefined (l : list num) :
  In NaN l \/ In PInf l \/ (l <> [] /\ forall v, In v l -> v = NInf) ->
  log_normalizer l = NaN.
Proof.
  intros [Hnan|[Hinf|[Hne Hall]]].
  - apply (log_normalizer_NaN l NaN); [exact Hnan | reflexivity].
  - destruct (compute_max l) as [| | |a] eqn:Hmax.
    + unfold log_normalizer. rewrite Hmax. reflexivity.
    + apply (log_normalizer_NaN l PInf); [exact Hinf | rewrite Hmax; reflexivity].
    + pose proof (compute_max_upper l PInf) as Hup. rewrite Hmax in Hup.
      discriminate Hup; [discriminate | exact Hinf].
    + pose proof (compute_max_upper l PInf) as Hup. rewrite Hmax in Hup.
      discriminate Hup; [discriminate | exact Hinf].
  - pose proof (compute_max_elem l Hne) as Hin.
    pose proof (Hall _ Hin) as Hmax.
    apply (log_normalizer_NaN l NInf); [rewrite <- Hmax; exact Hin|].
    rewrite Hmax. reflexivity.
Qed.

Lemma normalize_undefined (l : list num) :
  log_normalizer l = NaN -> Forall (fun q => q = NaN) (normalize l).
Proof.
  intros Hd. rewrite normalize_formula, Hd. apply Forall_map, Forall_forall.
  intros v _. destruct v; reflexivity.
Qed.

Lemma normalize_softmax (nclass : nat) (L : nat -> num) :
  softmax_contract nclass L (normalize (fill_array nclass L)).
Proof.
  rewrite fill_array_map. unfold softmax_contract. split; [|split; [|split]].
  - rewrite normalize_formula, !length_map, length_seq. reflexivity.
  - intros i Hi. rewrite normalize_formula.
    rewrite !list_lookup_fmap, lookup_seq_lt by exact Hi. reflexivity.
  - intros Hok (i & Hi & Hfin). apply normalize_distribution.
    + apply Forall_map, Forall_forall. intros j Hj.
      apply Hok. apply list_elem_of_In, in_seq in Hj. lia.
    + apply Exists_exists. exists (L i). split; [|exact Hfin].
      apply list_elem_of_In, (in_map L), in_seq. lia.
  - intros Hbad. destruct nclass as [|n]; [constructor|].
    apply normalize_undefined, log_normalizer_undefined.
    destruct Hbad as [(i & Hi & [Hv|Hv])|Hall].
    + left. rewrite <- Hv. apply (in_map L), in_seq. lia.
    + right. left. rewrite <- Hv. apply (in_map L), in_seq. lia.
    + right. right. split; [simpl; discriminate|].
      intros v Hv. apply in_map_iff in Hv as (i & <- & Hi).
      apply Hall. apply in_seq in Hi. lia.
Qed.




(** * Further properties of the code *)

(** ** The entry points *)

Lemma valid_arguments_design (x : input) (y : labels) :
  valid_arguments x y = true <->
  exists m ys, design_of x = Some m /\ y = YArr ys.
Proof.
  unfold valid_arguments. split.
  - intros H. apply andb_prop in H as [Hx Hy].
    destruct y as [ys|a]; [|discriminate].
    destruct x as [v|[|r rs]|m|a]; try discriminate; simpl; eauto.
  - intros (m & ys & Hx & ->).
    destruct x as [v|[|r rs]|m'|a]; try discriminate; reflexivity.
Qed.

Lemma check_labels_throw (y : labels) :
  isArrayLike_labels y = false -> exists msg, check_labels y = Throw (TypeError msg).
Proof. destruct y; simpl; intros H; [discriminate | eauto]. Qed.

Lemma invalid_arguments_cases (x : input) (y : labels) :
  valid_arguments x y = false ->
  design_of x = None \/
  (exists m, design_of x = Some m) /\ isArrayLike_labels y = false.
Proof.
  unfold valid_arguments. intros H.
  destruct (design_of x) as [m|] eqn:Hx; [|left; reflexivity].
  right. split; [eauto|].
  destruct x as [v|[|r rs]|m'|a]; try discriminate; simpl in H; exact H.
Qed.

(** X1.  [gaussianNB( x, y )] returns a model exactly when [x] is a
    matrix or a non-empty array of arrays and [y] is array-like, the
    model being the one fitted on the matrix of [x]; in every other case
    it throws a [TypeError], and it never fits anything then. *)
Theorem gaussianNB_outcome (x : input) (y : labels) :
  (valid_arguments x y = true ->
   exists m ys, design_of x = Some m /\ y = YArr ys /\
                gaussianNB x y = Ok (Gaussian.GaussianFit m ys)) /\
  (valid_arguments x y = false ->
   exists msg, gaussianNB x y = Throw (TypeError msg)).
Proof.
  split; intros H.
  - apply valid_arguments_design in H as (m & ys & Hx & ->).
    exists m, ys. repeat split; [exact Hx|].
    unfold gaussianNB. rewrite (check_design_ok _ _ Hx). reflexivity.
  - unfold gaussianNB.
    destruct (invalid_arguments_cases x y H) as [Hx|[[m Hx] Hy]].
    + destruct (check_design_throw x Hx) as [msg ->]. eauto.
    + rewrite (check_design_ok _ _ Hx).
      destruct (check_labels_throw y Hy) as [msg ->]. eauto.
Qed.

Lemma gaussianNB_outcome_witness :
  exists m ys,
    design_of (InRows [[Fin 0]; [Fin 10]]) = Some m /\
    YArr [LNum 0; LNum 1] = YArr ys /\
    gaussianNB (InRows [[Fin 0]; [Fin 10]]) (YArr [LNum 0; LNum 1])
    = Ok (Gaussian.GaussianFit m ys).
Proof.
  apply (proj1 (gaussianNB_outcome (InRows [[Fin 0]; [Fin 10]]) (YArr [LNum 0; LNum 1]))).
  reflexivity.
Defined.



(** A smoothing constant of zero is silently replaced by 1. *)
Lemma effective_alpha_zero :
  effective_alpha {[ "alpha" := JNumber (Fin 0) ]} = JNumber (Fin 1).
Proof.
  unfold effective_alpha. rewrite lookup_singleton_eq. simpl.
  rewrite bool_decide_eq_false_2 by (intros H; apply H; reflexivity). reflexivity.
Qed.

(** The string ['2'] is passed on as a string. *)
Lemma effective_alpha_text :
  effective_alpha {[ "alpha" := JString "2" ]} = JString "2" /\
  alpha_number (JString "2") = None.
Proof.
  unfold effective_alpha. rewrite lookup_singleton_eq. split; reflexivity.
Qed.

(** ** The accuracy at its extremes *)

Lemma count_upto_full (f : nat -> bool) (k : nat) :
  count_upto f k = k <-> forall i, i < k -> f i = true.
Proof.
  induction k as [|k IH]; simpl.
  - split; [intros _ i Hi; lia | reflexivity].
  - pose proof (count_upto_le f k) as Hle. split.
    + intros H i Hi. destruct (f k) eqn:Hk; [|lia].
      destruct (decide (i = k)) as [->|Hne]; [exact Hk|].
      apply IH; lia.
    + intros H. rewrite (H k) by lia.
      rewrite (proj2 IH) by (intros; apply H; lia). lia.
Qed.

Lemma count_upto_none (f : nat -> bool) (k : nat) :
  count_upto f k = 0 <-> forall i, i < k -> f i = false.
Proof.
  induction k as [|k IH]; simpl.
  - split; [intros _ i Hi; lia | reflexivity].
  - split.
    + intros H i Hi. destruct (f k) eqn:Hk; [lia|].
      destruct (decide (i = k)) as [->|Hne]; [exact Hk|].
      apply IH; lia.
    + intros H. rewrite (H k) by lia.
      rewrite (proj2 IH) by (intros; apply H; lia). lia.
Qed.

Lemma ratio_extremes (c k : nat) :
  c <= k -> 0 < k ->
  exists r : R,
    ndiv (of_nat c) (of_nat k) = Fin r /\
    (r = 1%R <-> c = k) /\ (r = 0%R <-> c = 0).
Proof.
  intros Hc Hk. unfold of_nat, ndiv.
  assert (Hpos : (0 < INR k)%R) by (apply lt_0_INR; exact Hk).
  destruct (decide (INR k = 0%R)) as [Hz|_]; [lra|].
  exists (INR c / INR k)%R. split; [reflexivity|]. split; split.
  - intros H. apply INR_eq. apply (Rmult_eq_reg_r (/ INR k)); [|apply Rinv_neq_0_compat; lra].
    rewrite Rinv_r by lra. exact H.
  - intros ->. field. lra.
  - intros H. apply INR_eq. simpl.
    apply (Rmult_eq_reg_r (/ INR k)); [|apply Rinv_neq_0_compat; lra].
    rewrite Rmult_0_l. exact H.
  - intros ->. simpl. field. lra.
Qed.

Lemma score_extremes_intro (predict : input -> prediction) :
  (forall x, predict x <> POne None) -> score_extremes predict.
Proof.
  intros Hp x ys Hx Hne.
  rewrite score_arraylike by (auto using Hp).
  destruct (ratio_extremes (matches (predict x) ys) (length ys)) as (r & Hr & H1 & H0).
  - apply count_upto_le.
  - destruct ys; [congruence | simpl; lia].
  - exists r. split; [rewrite Hr; reflexivity|]. split.
    + rewrite H1. apply count_upto_full.
    + rewrite H0. apply count_upto_none.
Qed.

(** X3.  For both models with at least one class, on array-like [x]
    and a non-empty [y], [score] returns exactly 1 if and only if every
    position of [y] agrees with the prediction read at that position,
    and exactly 0 if and only if no position agrees. *)
Theorem score_one_and_zero :
  (forall this : Multinomial.model,
     Multinomial.classes this <> [] -> score_extremes (Multinomial.predict this)) /\
  (forall this : Gaussian.model,
     Gaussian.classes this <> [] -> score_extremes (Gaussian.predict this)).
Proof.
  split; intros this Hne; apply score_extremes_intro; intros x.
  - apply Multinomial_predict_defined, Hne.
  - apply Gaussian_predict_defined, Hne.
Qed.

Lemma score_one_and_zero_witness : score_extremes (Multinomial.predict spec_fit).
Proof.
  apply (proj1 score_one_and_zero spec_fit).
  rewrite spec_fit_classes. discriminate.
Defined.

(** ** The labels [predict] returns *)

Lemma Multinomial_predictOne_member (this : Multinomial.model) (x : list num) :
  Multinomial.classes this <> [] ->
  exists c, Multinomial.predictOne this x = Some c /\ c ∈ Multinomial.classes this.
Proof.
  intros Hne.
  destruct (Multinomial_predictOne_argmax this x Hne) as (k & c & _ & Hc & Hres).
  exists c. split; [exact Hres|]. apply list_elem_of_lookup. eauto.
Qed.

Lemma Gaussian_predictOne_member (this : Gaussian.model) (x : list num) :
  Gaussian.classes this <> [] ->
  exists c, Gaussian.predictOne this x = Some c /\ c ∈ Gaussian.classes this.
Proof.
  intros Hne.
  destruct (Gaussian_predictOne_argmax this x Hne) as (k & c & _ & Hc & Hres).
  exists c. split; [exact Hres|]. apply list_elem_of_lookup. eauto.
Qed.

Lemma row_predictions_members (classes : list label)
    (predictOne : list num -> option label) (m : matrix) :
  (forall v, exists c, predictOne v = Some c /\ c ∈ classes) ->
  predicts_classes classes (PMany (row_predictions predictOne m)).
Proof.
  intros Hone. unfold row_predictions. apply Forall_map, Forall_forall.
  intros i _. simpl. apply Hone.
Qed.

(** X4.  For both models with at least one class, every label that
    [predict] returns, for a single observation or in the array it
    returns for a matrix or an array of arrays, is one of the classes
    of the model: [predict] never returns [undefined] nor a label unseen
    in training, whatever the observation holds. *)
Theorem predict_returns_classes :
  (forall (this : Multinomial.model) (x : input),
     Multinomial.classes this <> [] ->
     predicts_classes (Multinomial.classes this) (Multinomial.predict this x)) /\
  (forall (this : Gaussian.model) (x : input),
     Gaussian.classes this <> [] ->
     predicts_classes (Gaussian.classes this) (Gaussian.predict this x)).
Proof.
  split; intros this x Hne.
  - destruct x as [v|[|r rs]|m|a];
      try (apply (Multinomial_predictOne_member this _ Hne)).
    + change (Multinomial.predict this (InRows (r :: rs)))
        with (Multinomial.predict this (InMat (toMatrix (r :: rs)))).
      rewrite Multinomial_predict_matrix. apply row_predictions_members.
      intros v. apply Multinomial_predictOne_member, Hne.
    + rewrite Multinomial_predict_matrix. apply row_predictions_members.
      intros v. apply Multinomial_predictOne_member, Hne.
  - destruct x as [v|[|r rs]|m|a];
      try (apply (Gaussian_predictOne_member this _ Hne)).
    + change (Gaussian.predict this (InRows (r :: rs)))
        with (Gaussian.predict this (InMat (toMatrix (r :: rs)))).
      rewrite Gaussian_predict_matrix. apply row_predictions_members.
      intros v. apply Gaussian_predictOne_member, Hne.
    + rewrite Gaussian_predict_matrix. apply row_predictions_members.
      intros v. apply Gaussian_predictOne_member, Hne.
Qed.

Lemma predict_returns_classes_witness :
  predicts_classes (Multinomial.classes spec_fit)
    (Multinomial.predict spec_fit (InRows [[Fin 2; Fin 0]; [Fin 1; Fin 3]])).
Proof.
  apply (proj1 predict_returns_classes spec_fit).
  rewrite spec_fit_classes. discriminate.
Defined.

(** ** Scoring a single observation *)

Lemma score_of_vector_zero_intro (classes : list label) (predict : input -> prediction) :
  (forall c, c ∈ classes -> numeric_label c = true) ->
  (forall v, predicts_classes classes (predict (InVec v)) /\
             exists c, predict (InVec v) = POne c) ->
  score_of_vector_zero predict.
Proof.
  intros Hnum Hp v ys Hne.
  destruct (Hp v) as [Hcl [c Hc]]. rewrite Hc in Hcl. simpl in Hcl.
  destruct Hcl as (c' & -> & Hin). specialize (Hnum c' Hin).
  destruct c' as [z|s]; [|discriminate].
  rewrite score_arraylike; [|reflexivity|left; rewrite Hc; discriminate].
  destruct (ratio_extremes (matches (predict (InVec v)) ys) (length ys))
    as (r & Hr & _ & H0).
  - apply count_upto_le.
  - destruct ys; [congruence | simpl; lia].
  - exists r. split; [rewrite Hr; reflexivity|]. apply H0.
    apply count_upto_none. intros i Hi. unfold agree. rewrite Hc. simpl.
    destruct (lookup_lt_is_Some_2 ys i Hi) as [y ->].
    apply bool_decide_eq_false. discriminate.
Qed.

(** X5.  For both models with at least one class and numeric class
    labels, [score] of a single observation passed as a vector is 0
    whatever [y] holds, even the right label: [predict] then returns a
    bare label, not an array, and [yhat[ i ]] read on a number is
    [undefined], which equals no label. *)
Theorem score_single_observation_zero :
  (forall this : Multinomial.model,
     Multinomial.classes this <> [] ->
     (forall c, c ∈ Multinomial.classes this -> numeric_label c = true) ->
     score_of_vector_zero (Multinomial.predict this)) /\
  (forall this : Gaussian.model,
     Gaussian.classes this <> [] ->
     (forall c, c ∈ Gaussian.classes this -> numeric_label c = true) ->
     score_of_vector_zero (Gaussian.predict this)).
Proof.
  split; intros this Hne Hnum.
  - apply (score_of_vector_zero_intro (Multinomial.classes this)); [exact Hnum|].
    intros v. split; [|eexists; reflexivity].
    apply (Multinomial_predictOne_member this v Hne).
  - apply (score_of_vector_zero_intro (Gaussian.classes this)); [exact Hnum|].
    intros v. split; [|eexists; reflexivity].
    apply (Gaussian_predictOne_member this v Hne).
Qed.

Lemma score_single_observation_zero_witness :
  score_of_vector_zero (Multinomial.predict spec_fit).
Proof.
  apply (proj1 score_single_observation_zero spec_fit).
  - rewrite spec_fit_classes. discriminate.
  - rewrite spec_fit_classes. intros c Hc.
    inversion Hc as [|? ? ? Hc']; subst; [reflexivity|].
    inversion Hc' as [|? ? ? Hc'']; subst; [reflexivity|]. inversion Hc''.
Defined.

(** ** NaN in the scan for the most likely class *)

Lemma ngt_NaN_r (x : num) : ngt x NaN = false.
Proof. destruct x; reflexivity. Qed.

Lemma ngt_NaN_l (x : num) : ngt NaN x = false.
Proof. destruct x; reflexivity. Qed.

Lemma argmax_scan_anchor (classes : list label) (logLik : list num) (t : nat) :
  exists k,
    (k < t \/ k = 0) /\
    for_loop t (argmax_step classes logLik) (vec_get logLik 0, classes !! 0)
    = (vec_get logLik k, classes !! k) /\
    (k = 0 \/ ngt (vec_get logLik k) (vec_get logLik 0) = true).
Proof.
  induction t as [|t (k & Hk & Hloop & Hanchor)].
  - exists 0. repeat split; [right; reflexivity | left; reflexivity].
  - rewrite for_loop_S, Hloop. unfold argmax_step at 1. simpl fst.
    destruct (ngt (vec_get logLik t) (vec_get logLik k)) eqn:Hgt.
    + exists t. repeat split; [left; lia|].
      destruct Hanchor as [->|Hanchor]; [right; exact Hgt|].
      right. eapply ngt_trans; eassumption.
    + exists k. repeat split; [destruct Hk; [left; lia | right; assumption] | exact Hanchor].
Qed.

Lemma argmax_scan_choice (classes : list label) (nClasses : nat) (logLik : list num) :
  0 < nClasses ->
  exists k,
    scan_choice (vec_get logLik) nClasses k /\
    argmax_scan classes nClasses logLik = classes !! k.
Proof.
  intros Hpos.
  destruct (argmax_scan_anchor classes logLik nClasses) as (k & Hk & Hloop & Hanchor).
  exists k. unfold argmax_scan. rewrite Hloop. simpl. split; [|reflexivity].
  unfold scan_choice. repeat split.
  - lia.
  - exact Hanchor.
  - intros H0. destruct Hanchor as [->|Hgt]; [reflexivity|].
    rewrite H0, ngt_NaN_r in Hgt. discriminate.
  - intros Hne HNaN. destruct Hanchor as [->|Hgt]; [congruence|].
    rewrite HNaN, ngt_NaN_l in Hgt. discriminate.
Qed.

Lemma scan_choice_ext (L L' : nat -> num) (nclass k : nat) :
  0 < nclass -> (forall i, i < nclass -> L i = L' i) ->
  scan_choice L nclass k -> scan_choice L' nclass k.
Proof.
  intros Hpos HL (Hk & Hanchor & H0 & Hlater).
  unfold scan_choice. rewrite <- (HL k Hk), <- (HL 0 Hpos). auto.
Qed.

(** X6.  For both models with at least one class, the class
    [predictOne] returns is the first class, or a later class whose
    log-likelihood is greater than that of the first.  So when the
    log-likelihood of the first class is NaN the first class is
    returned whatever the others are, and a later class whose
    log-likelihood is NaN is never the one selected. *)
Theorem predictOne_with_NaN :
  (forall (this : Multinomial.model) (x : list num),
     Multinomial.classes this <> [] ->
     exists k,
       scan_choice (Multinomial.calcMultinomProb this x)
         (length (Multinomial.classes this)) k /\
       Multinomial.predictOne this x = Multinomial.classes this !! k) /\
  (forall (this : Gaussian.model) (x : list num),
     Gaussian.classes this <> [] ->
     exists k,
       scan_choice (Gaussian.calcGaussianProb this x)
         (length (Gaussian.classes this)) k /\
       Gaussian.predictOne this x = Gaussian.classes this !! k).
Proof.
  split; intros this x Hne.
  - assert (Hpos : 0 < length (Multinomial.classes this))
      by (destruct (Multinomial.classes this); [congruence | simpl; lia]).
    destruct (argmax_scan_choice (Multinomial.classes this) _
                (fill_array (length (Multinomial.classes this))
                   (Multinomial.loglik this (vec_get x))) Hpos) as (k & Hk & Hres).
    exists k. split; [|exact Hres].
    eapply scan_choice_ext; [exact Hpos | | exact Hk].
    intros i Hi. apply fill_array_get, Hi.
  - assert (Hpos : 0 < length (Gaussian.classes this))
      by (destruct (Gaussian.classes this); [congruence | simpl; lia]).
    destruct (argmax_scan_choice (Gaussian.classes this) _
                (fill_array (length (Gaussian.classes this))
                   (Gaussian.calcGaussianProb this x)) Hpos) as (k & Hk & Hres).
    exists k. split; [|exact Hres].
    eapply scan_choice_ext; [exact Hpos | | exact Hk].
    intros i Hi. apply fill_array_get, Hi.
Qed.

Lemma predictOne_with_NaN_witness :
  exists k,
    scan_choice (Gaussian.calcGaussianProb constant_fit [Fin 1])
      (length (Gaussian.classes constant_fit)) k /\
    Gaussian.predictOne constant_fit [Fin 1] = Gaussian.classes constant_fit !! k.
Proof.
  apply (proj2 predictOne_with_NaN constant_fit [Fin 1]).
  discriminate.
Defined.

(** ** What fitting leaves in the model *)

Lemma mat_set_shape (m : matrix) (i j : nat) (v : num) :
  shape0 (mat_set m i j v) = shape0 m /\ shape1 (mat_set m i j v) = shape1 m.
Proof. split; reflexivity. Qed.

Lemma set_column_shape (cp : matrix) (i t : nat) (f : nat -> num) :
  shape0 (for_loop t (fun j cp => mat_set cp j i (f j)) cp) = shape0 cp /\
  shape1 (for_loop t (fun j cp => mat_set cp j i (f j)) cp) = shape1 cp.
Proof.
  induction t as [|t [IH0 IH1]]; [split; reflexivity|].
  rewrite for_loop_S. simpl. split; assumption.
Qed.

Lemma full_table_zeros (p nclass : nat) : full_table p nclass (matrix_zeros p nclass).
Proof. split; [reflexivity|]. split; [reflexivity|]. apply mat_wf_zeros. Qed.

Lemma full_table_set_column (p nclass : nat) (cp : matrix) (i t : nat) (f : nat -> num) :
  full_table p nclass cp ->
  full_table p nclass (for_loop t (fun j cp => mat_set cp j i (f j)) cp).
Proof.
  intros (H0 & H1 & Hwf). destruct (set_column_shape cp i t f) as [E0 E1].
  split; [congruence|]. split; [congruence|]. apply set_column_wf; assumption.
Qed.

(** A loop that writes one property per class leaves exactly the keys of
    the classes it went through. *)
Lemma prior_loop_keys {B : Type} (F : nat -> gmap string num * B -> gmap string num * B)
    (cl : list label) (P : nat -> num) (t : nat) (st : gmap string num * B) (k : string) :
  (forall i s, fst (F i s) = <[key (cl !! i) := P i]> (fst s)) ->
  is_Some (fst (for_loop t F st) !! k) <->
  is_Some (fst st !! k) \/ exists i, i < t /\ key (cl !! i) = k.
Proof.
  intros HF. induction t as [|t IH].
  - simpl. split; [auto|]. intros [H|(i & Hi & _)]; [exact H | lia].
  - rewrite for_loop_S, HF.
    destruct (decide (key (cl !! t) = k)) as [<-|Hne].
    + rewrite lookup_insert_eq. split; [|eauto].
      intros _. right. exists t. split; [lia | reflexivity].
    + rewrite lookup_insert_ne by exact Hne. rewrite IH. split.
      * intros [H|(i & Hi & Hk)]; [left; exact H | right; exists i; split; [lia | exact Hk]].
      * intros [H|(i & Hi & Hk)]; [left; exact H|].
        right. exists i. split; [|exact Hk].
        destruct (decide (i = t)) as [->|]; [contradiction | lia].
Qed.

Lemma prior_keys_of_loop {B : Type} (F : nat -> gmap string num * B -> gmap string num * B)
    (cl : list label) (P : nat -> num) (b : B) :
  (forall i s, fst (F i s) = <[key (cl !! i) := P i]> (fst s)) ->
  prior_keys cl (fst (for_loop (length cl) F (∅, b))).
Proof.
  intros HF k. rewrite (prior_loop_keys F cl P) by exact HF. simpl.
  rewrite lookup_empty. split.
  - intros [[v Hv]|(i & Hi & Hk)]; [discriminate|].
    destruct (lookup_lt_is_Some_2 cl i Hi) as [c Hc].
    exists c. split; [apply list_elem_of_lookup; eauto | rewrite Hc in Hk; exact Hk].
  - intros (c & Hc & Hk). right.
    apply list_elem_of_lookup in Hc as [i Hi].
    exists i. split; [eapply lookup_lt_Some; exact Hi | rewrite Hi; exact Hk].
Qed.

Lemma fit_loop_full_table (this : Multinomial.model) (x : matrix) (y : list label)
    (st : gmap string num * matrix) (c t : nat) :
  full_table (Multinomial.p this) c (snd st) ->
  full_table (Multinomial.p this) c (snd (for_loop t (Multinomial.fit_class this x y) st)).
Proof.
  intros Hst. induction t as [|t IH]; [exact Hst|].
  rewrite for_loop_S, fit_class_snd. apply full_table_set_column, IH.
Qed.

Lemma Gaussian_fit_loop_full_table (this : Gaussian.model) (x : matrix) (y : list label)
    (st : gmap string num * (matrix * matrix)) (c t : nat) :
  full_table (Gaussian.p this) c (fst (snd st)) ->
  full_table (Gaussian.p this) c (snd (snd st)) ->
  full_table (Gaussian.p this) c (fst (snd (for_loop t (Gaussian.fit_class this x y) st))) /\
  full_table (Gaussian.p this) c (snd (snd (for_loop t (Gaussian.fit_class this x y) st))).
Proof.
  intros Hmu Hsg. induction t as [|t [IHmu IHsg]]; [split; assumption|].
  rewrite for_loop_S, Gaussian_fit_class_snd. cbn [fst snd].
  split; apply full_table_set_column; assumption.
Qed.

(** X7.  Whatever the data, a fitted model of either family is
    complete: [n] and [p] are the shape of [x], [nclass] is the number
    of classes, each parameter table ([cprob]; [mu] and [sigma]) is a
    [p]-by-[nclass] matrix with every entry present, and [prior] has a
    property for the key of every class and no other property. *)
Theorem fitted_model_complete (x : matrix) (y : list label) (alpha : num) :
  (Multinomial.n (Multinomial.MultinomialFit x y alpha) = shape0 x /\
   Multinomial.p (Multinomial.MultinomialFit x y alpha) = shape1 x /\
   Multinomial.nclass (Multinomial.MultinomialFit x y alpha)
   = length (Multinomial.classes (Multinomial.MultinomialFit x y alpha)) /\
   full_table (shape1 x) (length (Multinomial.classes (Multinomial.MultinomialFit x y alpha)))
     (Multinomial.cprob (Multinomial.MultinomialFit x y alpha)) /\
   prior_keys (Multinomial.classes (Multinomial.MultinomialFit x y alpha))
     (Multinomial.prior (Multinomial.MultinomialFit x y alpha))) /\
  (Gaussian.n (Gaussian.GaussianFit x y) = shape0 x /\
   Gaussian.p (Gaussian.GaussianFit x y) = shape1 x /\
   Gaussian.nclass (Gaussian.GaussianFit x y)
   = length (Gaussian.classes (Gaussian.GaussianFit x y)) /\
   full_table (shape1 x) (length (Gaussian.classes (Gaussian.GaussianFit x y)))
     (Gaussian.mu (Gaussian.GaussianFit x y)) /\
   full_table (shape1 x) (length (Gaussian.classes (Gaussian.GaussianFit x y)))
     (Gaussian.sigma (Gaussian.GaussianFit x y)) /\
   prior_keys (Gaussian.classes (Gaussian.GaussianFit x y))
     (Gaussian.prior (Gaussian.GaussianFit x y))).
Proof.
  split.
  - split; [reflexivity|]. split; [reflexivity|]. split; [reflexivity|]. split.
    + simpl.
      match goal with
      | |- context [for_loop ?t (Multinomial.fit_class ?this _ _) ?st] =>
          apply (fit_loop_full_table this x y st (length (compute_unique y)) t)
      end.
      apply full_table_zeros.
    + simpl.
      match goal with
      | |- prior_keys ?cl (fst (for_loop _ (Multinomial.fit_class ?this _ _) (_, ?b))) =>
          apply (prior_keys_of_loop (Multinomial.fit_class this x y) cl
                   (fun i => spec_prior (length (class_ids (shape0 x) y (cl !! i))) (shape0 x)) b)
      end.
      intros i s. apply fit_class_fst.
  - split; [reflexivity|]. split; [reflexivity|]. split; [reflexivity|]. simpl.
    match goal with
    | |- context [for_loop _ (Gaussian.fit_class ?this _ _) ?st] =>
        destruct (Gaussian_fit_loop_full_table this x y st
                    (length (compute_unique y)) (length (compute_unique y)))
          as [Hmu Hsg]; [apply full_table_zeros | apply full_table_zeros |]
    end.
    split; [exact Hmu|]. split; [exact Hsg|].
    match goal with
    | |- prior_keys ?cl (fst (for_loop _ (Gaussian.fit_class ?this _ _) (_, ?b))) =>
        apply (prior_keys_of_loop (Gaussian.fit_class this x y) cl
                 (fun i => spec_prior (length (class_ids (shape0 x) y (cl !! i))) (shape0 x)) b)
    end.
    intros i s. apply Gaussian_fit_class_fst.
Qed.

(** ** The parameters of a fitted Gaussian model *)

(** X8.  After fitting the Gaussian model on [(x, y)], for the class
    [c] at index [i] and every feature [j], [mu[ j ][ i ]] is the mean
    and [sigma[ j ][ i ]] the standard deviation of the entries of
    column [j] in the rows labelled [c] and in no other row; and when no
    other class shares the property key of [c], [prior[ c ]] is
    [ln( nc / n )], [nc] being the number of rows labelled [c]. *)
Theorem GaussianFit_formulas (x : matrix) (y : list label) (i : nat) (c : label) :
  Gaussian.classes (Gaussian.GaussianFit x y) !! i = Some c ->
  (forall j, j < shape1 x ->
     mat_get (Gaussian.mu (Gaussian.GaussianFit x y)) j i
     = compute_mean (column x (class_rows (shape0 x) y c) j) /\
     mat_get (Gaussian.sigma (Gaussian.GaussianFit x y)) j i
     = compute_stdev (column x (class_rows (shape0 x) y c) j)) /\
  ((forall c', c' ∈ Gaussian.classes (Gaussian.GaussianFit x y) ->
               key (Some c') = key (Some c) -> c' = c) ->
   prop_get (Gaussian.prior (Gaussian.GaussianFit x y)) (Some c)
   = spec_prior (length (class_rows (shape0 x) y c)) (shape0 x)).
Proof.
  intros Hc. split.
  - intros j Hj. apply GaussianFit_parameters; assumption.
  - apply (GaussianFit_prior x y i c Hc).
Qed.

Lemma GaussianFit_formulas_witness :
  (forall j, j < shape1 constant_x ->
     mat_get (Gaussian.mu constant_fit) j 0
     = compute_mean (column constant_x
                       (class_rows (shape0 constant_x) [LNum 0; LNum 0] (LNum 0)) j) /\
     mat_get (Gaussian.sigma constant_fit) j 0
     = compute_stdev (column constant_x
                        (class_rows (shape0 constant_x) [LNum 0; LNum 0] (LNum 0)) j)) /\
  prop_get (Gaussian.prior constant_fit) (Some (LNum 0))
  = spec_prior (length (class_rows (shape0 constant_x) [LNum 0; LNum 0] (LNum 0)))
      (shape0 constant_x).
Proof.
  destruct (GaussianFit_formulas constant_x [LNum 0; LNum 0] 0 (LNum 0)) as [Hms Hpr];
    [reflexivity|].
  split; [exact Hms|]. apply Hpr.
  intros c' Hc' _. change (Gaussian.classes _) with [LNum 0] in Hc'.
  inversion Hc' as [|? ? ? Hc'']; subst; [reflexivity | inversion Hc''].
Defined.

(** ** Laplace smoothing *)

Section Smoothing.

#[local] Open Scope R_scope.



Lemma exp_le_1 (r : R) : exp r <= 1 -> r <= 0.
Proof.
  intros H. destruct (Rle_dec r 0) as [Hr|Hr]; [exact Hr|].
  assert (Hlt : exp 0 < exp r) by (apply exp_increasing; lra).
  rewrite exp_0 in Hlt. lra.
Qed.

End Smoothing.





(** ** The priors as class frequencies *)

Lemma unique_from_elem (seen y : list label) (c : label) :
  c ∈ unique_from seen y <-> c ∈ y /\ c ∉ seen.
Proof.
  revert seen. induction y as [|a y IH]; intros seen; simpl.
  - rewrite elem_of_nil. tauto.
  - destruct (decide (a ∈ seen)) as [Ha|Ha].
    + rewrite IH, elem_of_cons. split; [tauto|].
      intros [[->|Hc] Hn]; [contradiction | tauto].
    + rewrite !elem_of_cons, IH, not_elem_of_cons. split.
      * intros [->|(Hc & Hne & Hn)]; tauto.
      * intros [[->|Hc] Hn]; [tauto|].
        destruct (decide (c = a)) as [->|Hne]; tauto.
Qed.

Lemma unique_from_NoDup (seen y : list label) : NoDup (unique_from seen y).
Proof.
  revert seen. induction y as [|a y IH]; intros seen; simpl; [constructor|].
  destruct (decide (a ∈ seen)) as [Ha|Ha]; [apply IH|].
  apply NoDup_cons. split; [|apply IH].
  rewrite unique_from_elem, not_elem_of_cons. tauto.
Qed.

Lemma compute_unique_elem (y : list label) (c : label) :
  c ∈ compute_unique y <-> c ∈ y.
Proof.
  unfold compute_unique. rewrite unique_from_elem, elem_of_nil. tauto.
Qed.

Lemma filter_ext_in {A : Type} (P1 P2 : A -> Prop)
    `{!forall x, Decision (P1 x), !forall x, Decision (P2 x)} (l : list A) :
  (forall x, x ∈ l -> P1 x <-> P2 x) -> filter P1 l = filter P2 l.
Proof.
  induction l as [|a l IH]; intros Hiff; [reflexivity|].
  rewrite !filter_cons.
  assert (Ha : P1 a <-> P2 a) by (apply Hiff, elem_of_cons; left; reflexivity).
  rewrite IH by (intros x Hx; apply Hiff, elem_of_cons; right; exact Hx).
  destruct (decide (P1 a)), (decide (P2 a)); tauto || reflexivity.
Qed.

(** The number of rows labelled [c] is the number of occurrences of [c]. *)
Lemma class_rows_count (y : list label) (c : label) :
  length (class_rows (length y) y c) = length (filter (fun v => v = c) y).
Proof.
  unfold class_rows. induction y as [|a y IH] using rev_ind; [reflexivity|].
  rewrite length_app. simpl. rewrite Nat.add_1_r, seq_S, !filter_app, !length_app.
  simpl. f_equal.
  - rewrite <- IH. f_equal. apply filter_ext_in.
    intros j Hj. apply list_elem_of_In, in_seq in Hj.
    rewrite lookup_app_l by lia. reflexivity.
  - rewrite !filter_cons, !filter_nil.
    rewrite list_lookup_middle by reflexivity.
    destruct (decide (Some a = Some c)) as [H1|H1];
      destruct (decide (a = c)) as [H2|H2]; try reflexivity; congruence.
Qed.

Lemma sum_list_with_zero {A : Type} (f : A -> nat) (l : list A) :
  (forall c, c ∈ l -> f c = 0) -> sum_list_with f l = 0.
Proof.
  induction l as [|c l IH]; intros Hf; [reflexivity|]. simpl.
  rewrite Hf by (apply elem_of_cons; left; reflexivity).
  apply IH. intros c' Hc'. apply Hf, elem_of_cons. right. exact Hc'.
Qed.

Lemma sum_list_with_ext_in {A : Type} (f g : A -> nat) (l : list A) :
  (forall c, c ∈ l -> f c = g c) -> sum_list_with f l = sum_list_with g l.
Proof.
  induction l as [|c l IH]; intros Hfg; [reflexivity|]. simpl.
  rewrite Hfg by (apply elem_of_cons; left; reflexivity). f_equal.
  apply IH. intros c' Hc'. apply Hfg, elem_of_cons. right. exact Hc'.
Qed.

Lemma sum_list_with_add {A : Type} (f g : A -> nat) (l : list A) :
  sum_list_with (fun c => f c + g c) l = sum_list_with f l + sum_list_with g l.
Proof. induction l as [|c l IH]; simpl; [reflexivity | rewrite IH; lia]. Qed.

Lemma sum_indicator (cl : list label) (a : label) :
  NoDup cl -> a ∈ cl ->
  sum_list_with (fun c => if decide (a = c) then 1 else 0) cl = 1.
Proof.
  induction cl as [|c cl IH]; intros Hnd Ha; [apply elem_of_nil in Ha; contradiction|].
  apply NoDup_cons in Hnd as [Hc Hnd]. simpl.
  destruct (decide (a = c)) as [->|Hne].
  - rewrite sum_list_with_zero; [reflexivity|].
    intros c' Hc'. destruct (decide (c = c')) as [->|_]; [contradiction | reflexivity].
  - apply elem_of_cons in Ha as [Ha|Ha]; [congruence|]. rewrite IH by assumption.
    reflexivity.
Qed.

Lemma occurrences_partition (cl y : list label) :
  NoDup cl -> (forall c, c ∈ y -> c ∈ cl) ->
  sum_list_with (fun c => length (filter (fun v => v = c) y)) cl = length y.
Proof.
  intros Hnd. induction y as [|a y IH]; intros Hsub.
  - apply sum_list_with_zero. reflexivity.
  - rewrite (sum_list_with_ext_in _ (fun c => (if decide (a = c) then 1 else 0)
                                          + length (filter (fun v => v = c) y))).
    + rewrite sum_list_with_add, sum_indicator, IH.
      * reflexivity.
      * intros c Hc. apply Hsub, elem_of_cons. right. exact Hc.
      * exact Hnd.
      * apply Hsub, elem_of_cons. left. reflexivity.
    + intros c _. rewrite filter_cons. destruct (decide (a = c)); reflexivity.
Qed.

Lemma exp_spec_prior (nc n : nat) :
  1 <= nc -> nc <= n ->
  exists r : R,
    spec_prior nc n = Fin r /\ (r <= 0)%R /\ exp r = (INR nc / INR n)%R.
Proof.
  intros Hnc Hn. unfold spec_prior, of_nat, ndiv.
  assert (Hc : (1 <= INR nc)%R) by (apply (le_INR 1); exact Hnc).
  assert (Hle : (INR nc <= INR n)%R) by (apply le_INR; exact Hn).
  destruct (decide (INR n = 0%R)) as [H|_]; [lra|].
  assert (Hq : (0 < INR nc / INR n <= 1)%R).
  { split.
    - apply Rmult_lt_0_compat; [lra|]. apply Rinv_0_lt_compat. lra.
    - apply (Rmult_le_reg_r (INR n)); [lra|]. field_simplify; lra. }
  unfold Math_log. destruct (decide (0 < INR nc / INR n)%R) as [_|H]; [|lra].
  eexists. split; [reflexivity|].
  rewrite exp_ln by lra. split; [|reflexivity].
  apply exp_le_1. rewrite exp_ln by lra. lra.
Qed.

Lemma sum_INR {A : Type} (f : A -> nat) (l : list A) :
  fold_left Rplus (map (fun c => INR (f c)) l) 0%R = INR (sum_list_with f l).
Proof.
  induction l as [|c l IH]; [reflexivity|]. simpl.
  rewrite fold_left_Rplus_shift, IH, plus_INR. lra.
Qed.

Lemma empirical_priors_intro (y : list label) (prior : gmap string num) :
  y <> [] ->
  (forall c, c ∈ compute_unique y ->
     prop_get prior (Some c) = spec_prior (length (class_rows (length y) y c)) (length y)) ->
  empirical_priors (length y) y (compute_unique y) prior.
Proof.
  intros Hne Hprior.
  assert (Hcount : forall c, c ∈ compute_unique y ->
            1 <= length (class_rows (length y) y c) <= length y).
  { intros c Hc. split.
    - apply (proj1 (compute_unique_elem y c)) in Hc.
      apply list_elem_of_lookup in Hc as [j Hj].
      assert (Hin : j ∈ class_rows (length y) y c).
      { apply list_elem_of_filter. split; [exact Hj|].
        apply list_elem_of_In, in_seq. apply lookup_lt_Some in Hj. lia. }
      destruct (class_rows (length y) y c); [apply elem_of_nil in Hin; contradiction|].
      simpl. lia.
    - unfold class_rows. etransitivity; [apply length_filter|].
      rewrite length_seq. reflexivity. }
  split.
  - intros c Hc. destruct (Hcount c Hc) as [H1 Hn].
    destruct (exp_spec_prior _ _ H1 Hn) as (r & Hr & Hr0 & Hexp).
    exists r. rewrite Hprior, Hr by exact Hc. auto.
  - rewrite (map_ext_in _ (fun c => Fin (INR (length (class_rows (length y) y c))
                                           * / INR (length y)))).
    + rewrite <- (map_map (fun c => (INR (length (class_rows (length y) y c))
                                      * / INR (length y))%R) Fin), compute_sum_Fin.
      rewrite <- (map_map (fun c => INR (length (class_rows (length y) y c)))
                          (fun v => (v * / INR (length y))%R)), sum_scale, sum_INR.
      rewrite (sum_list_with_ext_in _ (fun c => length (filter (fun v => v = c) y)))
        by (intros c _; apply class_rows_count).
      rewrite occurrences_partition.
      * f_equal. apply Rinv_r. apply not_0_INR. destruct y; [congruence | discriminate].
      * apply unique_from_NoDup.
      * intros c Hc. apply compute_unique_elem, Hc.
    + intros c Hc. apply list_elem_of_In in Hc. destruct (Hcount c Hc) as [H1 Hn].
      destruct (exp_spec_prior _ _ H1 Hn) as (r & Hr & _ & Hexp).
      rewrite Hprior, Hr by exact Hc. simpl. f_equal. exact Hexp.
Qed.

Lemma MultinomialFit_priors (x : matrix) (y : list label) (alpha : num) :
  y <> [] -> length y = shape0 x -> keys_unshared (compute_unique y) ->
  empirical_priors (shape0 x) y
    (Multinomial.classes (Multinomial.MultinomialFit x y alpha))
    (Multinomial.prior (Multinomial.MultinomialFit x y alpha)).
Proof.
  intros Hne Hlen Hkeys. rewrite <- Hlen.
  apply (empirical_priors_intro y _ Hne). intros c Hc.
  pose proof Hc as Hc'. apply list_elem_of_lookup in Hc' as [i Hi].
  destruct (MultinomialFit_parameters x y alpha i c Hi) as [_ Hpr].
  rewrite Hlen. apply Hpr. intros c' Hc'' Hk. symmetry.
  apply Hkeys; [exact Hc | exact Hc'' | symmetry; exact Hk].
Qed.

(** X10.  When [y] is non-empty, has one label per row of [x], and no
    two of its labels share a property key, the priors of the fitted
    model (either family) are the logarithms of the class frequencies:
    for every class [c], [prior[ c ]] is finite and not above 0, with
    [exp( prior[ c ] ) = nc / n] and [nc >= 1]; and the
    [exp( prior[ c ] )] sum to 1 over the classes. *)
Theorem fitted_priors_are_frequencies (x : matrix) (y : list label) (alpha : num) :
  y <> [] -> length y = shape0 x -> keys_unshared (compute_unique y) ->
  empirical_priors (shape0 x) y
    (Multinomial.classes (Multinomial.MultinomialFit x y alpha))
    (Multinomial.prior (Multinomial.MultinomialFit x y alpha)) /\
  empirical_priors (shape0 x) y
    (Gaussian.classes (Gaussian.GaussianFit x y))
    (Gaussian.prior (Gaussian.GaussianFit x y)).
Proof.
  intros Hne Hlen Hkeys. split.
  - apply MultinomialFit_priors; assumption.
  - rewrite <- Hlen. apply (empirical_priors_intro y _ Hne). intros c Hc.
    pose proof Hc as Hc'. apply list_elem_of_lookup in Hc' as [i Hi].
    rewrite Hlen. apply (GaussianFit_prior x y i c Hi).
    intros c' Hc'' Hk. symmetry.
    apply Hkeys; [exact Hc | exact Hc'' | symmetry; exact Hk].
Qed.

Lemma spec_keys_unshared : keys_unshared (compute_unique spec_y).
Proof.
  change (compute_unique spec_y) with [LNum 0; LNum 1].
  intros c c' Hc Hc' Hk.
  inversion Hc as [|? ? ? Hc1]; subst;
    [|inversion Hc1 as [|? ? ? Hc2]; subst; [|inversion Hc2]];
    (inversion Hc' as [|? ? ? Hc1']; subst;
     [|inversion Hc1' as [|? ? ? Hc2']; subst; [|inversion Hc2']]);
    try reflexivity; vm_compute in Hk; discriminate.
Qed.

Lemma fitted_priors_are_frequencies_witness :
  empirical_priors (shape0 spec_x) spec_y
    (Multinomial.classes spec_fit) (Multinomial.prior spec_fit) /\
  empirical_priors (shape0 spec_x) spec_y
    (Gaussian.classes (Gaussian.GaussianFit spec_x spec_y))
    (Gaussian.prior (Gaussian.GaussianFit spec_x spec_y)).
Proof.
  apply (fitted_priors_are_frequencies spec_x spec_y (Fin 1)).
  - discriminate.
  - reflexivity.
  - apply spec_keys_unshared.
Defined.

(** ** [predictProbs] row by row *)

Lemma Gaussian_predictProbs_matrix (this : Gaussian.model) (m : matrix) :
  0 < shape0 m ->
  Gaussian.predictProbs this (InMat m)
  = QMany (map (fun i => Some (normalize
                                 (fill_array (Gaussian.nclass this)
                                    (Gaussian.calcGaussianProb this (mat_row m i)))))
             (seq 0 (shape0 m))).
Proof.
  intros Hm. unfold Gaussian.predictProbs. simpl. f_equal.
  rewrite <- (collect_loop_preallocated (shape0 m)
                (fun i => Some (normalize
                                  (fill_array (Gaussian.nclass this)
                                     (Gaussian.calcGaussianProb this (mat_row m i))))))
    by exact Hm.
  apply for_loop_ext. intros i ret _. rewrite mat_data_one_row. reflexivity.
Qed.

Lemma probs_by_row_intro (predictProbs : input -> probabilities) (m : matrix)
    (f : nat -> list num) :
  predictProbs (InMat m) = QMany (map (fun i => Some (f i)) (seq 0 (shape0 m))) ->
  (forall i, i < shape0 m -> predictProbs (InVec (mat_row m i)) = QOne (f i)) ->
  probs_by_row predictProbs m.
Proof.
  intros Hm Hv. exists (map f (seq 0 (shape0 m))). split; [|split].
  - rewrite Hm, map_map. reflexivity.
  - rewrite length_map, length_seq. reflexivity.
  - intros i Hi. exists (f i). split; [|apply Hv, Hi].
    rewrite list_lookup_fmap, lookup_seq_lt by exact Hi. reflexivity.
Qed.

(** X11.  On a matrix with at least one row, [predictProbs] returns
    one probability vector per row, in row order.  For the Gaussian
    model each is the vector [predictProbs] returns for that row passed
    alone; for the multinomial model it is so when the features of the
    matrix and the parameters of the model are finite (the matrix case
    tests a feature before multiplying, the vector case does not). *)
Theorem predictProbs_row_by_row :
  (forall (this : Gaussian.model) (m : matrix),
     0 < shape0 m -> probs_by_row (Gaussian.predictProbs this) m) /\
  (forall (this : Multinomial.model) (m : matrix),
     0 < shape0 m -> finite_products this m ->
     probs_by_row (Multinomial.predictProbs this) m).
Proof.
  split.
  - intros this m Hm.
    apply (probs_by_row_intro _ m
             (fun i => normalize (fill_array (Gaussian.nclass this)
                                    (Gaussian.calcGaussianProb this (mat_row m i))))).
    + apply Gaussian_predictProbs_matrix, Hm.
    + reflexivity.
  - intros this m Hm Hfin.
    apply (probs_by_row_intro _ m
             (fun i => normalize (fill_array (Multinomial.nclass this)
                                    (Multinomial.calcMultinomProb this (mat_row m i))))).
    + apply Multinomial_predictProbs_matrix, Hm.
    + intros i Hi. unfold Multinomial.predictProbs. simpl. do 2 f_equal.
      apply fill_array_ext. intros k Hk.
      apply loglik_untested_finite. intros j Hj.
      apply (Hfin i j k Hi Hj Hk).
Qed.

Lemma predictProbs_row_by_row_witness :
  probs_by_row (Multinomial.predictProbs unit_model) (Matrix 1 1 [[Fin 2]]).
Proof.
  apply (proj2 predictProbs_row_by_row unit_model (Matrix 1 1 [[Fin 2]])).
  - simpl. lia.
  - intros i j k Hi Hj Hk. simpl in Hi, Hj, Hk.
    destruct i as [|i]; [|lia]. destruct j as [|j]; [|lia]. destruct k as [|k]; [|lia].
    split; reflexivity.
Defined.

(** ** [predict] and [predictProbs] agree *)

(** The log-likelihoods of the classes hold a NaN or a +Infinity, or
    are all -Infinity, or are numbers and -Infinity with one number at
    least. *)
Lemma loglik_cases (nclass : nat) (L : nat -> num) :
  (exists i, i < nclass /\ (L i = NaN \/ L i = PInf)) \/
  (forall i, i < nclass -> L i = NInf) \/
  ((forall i, i < nclass -> L i <> NaN /\ L i <> PInf) /\
   exists i, i < nclass /\ is_finite (L i) = true).
Proof.
  induction nclass as [|n IH]; [right; left; intros i Hi; lia|].
  destruct IH as [(i & Hi & Hbad)|[Hall|[Hok (i & Hi & Hfin)]]].
  - left. exists i. split; [lia | exact Hbad].
  - destruct (L n) as [| | |r] eqn:Hn.
    + left. exists n. split; [lia | left; exact Hn].
    + left. exists n. split; [lia | right; exact Hn].
    + right. left. intros i Hi.
      destruct (decide (i = n)) as [->|Hne]; [exact Hn | apply Hall; lia].
    + right. right. split.
      * intros i Hi. destruct (decide (i = n)) as [->|Hne];
          [rewrite Hn | rewrite Hall by lia]; split; discriminate.
      * exists n. split; [lia | rewrite Hn; reflexivity].
  - destruct (L n) as [| | |r] eqn:Hn.
    + left. exists n. split; [lia | left; exact Hn].
    + left. exists n. split; [lia | right; exact Hn].
    + right. right. split; [|exists i; split; [lia | exact Hfin]].
      intros j Hj. destruct (decide (j = n)) as [->|Hne];
        [rewrite Hn; split; discriminate | apply Hok; lia].
    + right. right. split; [|exists i; split; [lia | exact Hfin]].
      intros j Hj. destruct (decide (j = n)) as [->|Hne];
        [rewrite Hn; split; discriminate | apply Hok; lia].
Qed.

Lemma all_NaN_get (ps : list num) (i : nat) :
  Forall (fun q => q = NaN) ps -> vec_get ps i = NaN.
Proof.
  intros H. unfold vec_get. destruct (ps !! i) as [q|] eqn:Hq; [|reflexivity].
  simpl. rewrite Forall_forall in H. apply H, list_elem_of_lookup. eauto.
Qed.

(** The class the scan selects has a probability that no other class
    exceeds.  When the normalisation yields NaN throughout, no
    probability exceeds any other. *)
Lemma scan_most_probable (classes : list label) (L : nat -> num) :
  classes <> [] ->
  exists k c,
    classes !! k = Some c /\
    argmax_scan classes (length classes) (fill_array (length classes) L) = Some c /\
    forall i, ngt (vec_get (normalize (fill_array (length classes) L)) i)
                  (vec_get (normalize (fill_array (length classes) L)) k) = false.
Proof.
  intros Hne.
  destruct (scan_determined classes L Hne)
    as (k & c & (Hk & Hmax & _) & _ & _ & Hc & Hres & _).
  exists k, c. split; [exact Hc|]. split; [exact Hres|].
  destruct (normalize_softmax (length classes) L) as (_ & _ & _ & Hbad).
  destruct (loglik_cases (length classes) L) as [Hb|[Hb|[Hok (i0 & Hi0 & Hfin)]]].
  - intros i. rewrite (all_NaN_get _ i) by (apply Hbad; left; exact Hb).
    apply ngt_NaN_l.
  - intros i. rewrite (all_NaN_get _ i) by (apply Hbad; right; exact Hb).
    apply ngt_NaN_l.
  - rewrite fill_array_map.
    destruct (normalize_numbers (map L (seq 0 (length classes)))) as (a & HS & ->).
    { apply Forall_map, Forall_forall. intros j Hj.
      apply Hok. apply list_elem_of_In, in_seq in Hj. lia. }
    { apply Exists_exists. exists (L i0). split; [|exact Hfin].
      apply list_elem_of_In, (in_map L), in_seq. lia. }
    intros i. unfold vec_get. rewrite !list_lookup_fmap.
    rewrite (lookup_seq_lt _ _ k) by exact Hk.
    destruct (decide (i < length classes)) as [Hi|Hi].
    + rewrite lookup_seq_lt by exact Hi. simpl.
      apply bool_decide_eq_false.
      destruct (Hok i Hi) as [Hi1 Hi2]. destruct (Hok k Hk) as [Hk1 Hk2].
      pose proof (exp_shift_monotone (L i) (L k) a Hi1 Hi2 Hk1 Hk2 (Hmax i Hi)) as Hle.
      assert (Hinv : (0 < / fold_left Rplus
                             (map (fun v => real_of (Math_exp (nsub v (Fin a))))
                                (map L (seq 0 (length classes)))) 0)%R)
        by (apply Rinv_0_lt_compat; exact HS).
      intros Hlt. apply Rmult_lt_reg_r in Hlt; [lra | exact Hinv].
    + rewrite lookup_seq_ge by lia. reflexivity.
Qed.

(** A feature multiplied without the test gives the log-likelihood of
    the tested loop, or else NaN. *)
Lemma loglik_untested_or_NaN (this : Multinomial.model) (get : nat -> num) (i : nat) :
  Multinomial.loglik_untested this get i = NaN \/
  Multinomial.loglik_untested this get i = Multinomial.loglik this get i.
Proof.
  unfold Multinomial.loglik_untested, Multinomial.loglik.
  generalize (Multinomial.p this) as k. intros k.
  induction k as [|k IH]; [right; reflexivity|].
  rewrite !for_loop_S. destruct IH as [-> | ->]; [left; reflexivity|].
  match goal with |- context [nadd ?res _] => generalize res end. intros res.
  destruct (get k) as [| | |r] eqn:Hg.
  - left. apply nadd_NaN_r.
  - right. reflexivity.
  - right. reflexivity.
  - simpl truthy. destruct (bool_decide_reflect (r <> 0%R)) as [_|H0]; [right; reflexivity|].
    assert (Hr : r = 0%R) by (destruct (Req_dec r 0); [assumption | contradiction]).
    subst r.
    destruct (mat_get (Multinomial.cprob this) k i) as [| | |c]; simpl.
    + left. apply nadd_NaN_r.
    + left. unfold Rsgn. decide_reals. apply nadd_NaN_r.
    + left. unfold Rsgn. decide_reals. apply nadd_NaN_r.
    + right. do 2 f_equal. lra.
Qed.

Lemma some_or_all (n : nat) (P Q : nat -> Prop) :
  (forall i, i < n -> P i \/ Q i) ->
  (exists i, i < n /\ P i) \/ (forall i, i < n -> Q i).
Proof.
  induction n as [|n IH]; intros H; [right; intros i Hi; lia|].
  destruct IH as [(i & Hi & HP)|HQ]; [intros i Hi; apply H; lia | |].
  - left. exists i. split; [lia | exact HP].
  - destruct (H n) as [HP|HQn]; [lia | |].
    + left. exists n. split; [lia | exact HP].
    + right. intros i Hi.
      destruct (decide (i = n)) as [->|Hne]; [exact HQn | apply HQ; lia].
Qed.

(** X12.  For a model with at least one class whose [nclass] field is
    the number of its classes, and any observation, [predictProbs]
    returns one probability per class and the class [predictOne]
    returns is one of greatest probability: no class has a probability
    greater than it has.  (When the probabilities are all NaN none is
    greater than another.)  Only the order of the numbers is used, not
    their exact values. *)
Theorem predict_agrees_with_predictProbs :
  (forall (this : Gaussian.model) (v : list num),
     Gaussian.classes this <> [] ->
     Gaussian.nclass this = length (Gaussian.classes this) ->
     predicts_most_probable (Gaussian.classes this) (Gaussian.predictOne this)
       (Gaussian.predictProbs this) v) /\
  (forall (this : Multinomial.model) (v : list num),
     Multinomial.classes this <> [] ->
     Multinomial.nclass this = length (Multinomial.classes this) ->
     predicts_most_probable (Multinomial.classes this) (Multinomial.predictOne this)
       (Multinomial.predictProbs this) v).
Proof.
  split.
  - intros this v Hne Hn.
    destruct (scan_most_probable (Gaussian.classes this)
                (Gaussian.calcGaussianProb this v) Hne) as (k & c & Hc & Hres & Hmax).
    exists k, c, (normalize (fill_array (Gaussian.nclass this)
                               (Gaussian.calcGaussianProb this v))).
    split; [exact Hres|]. split; [exact Hc|]. split; [reflexivity|]. split.
    + rewrite <- Hn. apply normalize_softmax.
    + rewrite Hn. intros i _. apply Hmax.
  - intros this v Hne Hn.
    destruct (scan_most_probable (Multinomial.classes this)
                (Multinomial.calcMultinomProb this v) Hne) as (k & c & Hc & Hres & Hmax).
    exists k, c, (normalize (fill_array (Multinomial.nclass this)
                               (Multinomial.loglik_untested this (vec_get v)))).
    split; [exact Hres|]. split; [exact Hc|]. split; [reflexivity|]. split.
    + rewrite <- Hn. apply normalize_softmax.
    + destruct (some_or_all (Multinomial.nclass this)
                  (fun i => Multinomial.loglik_untested this (vec_get v) i = NaN)
                  (fun i => Multinomial.loglik_untested this (vec_get v) i
                            = Multinomial.calcMultinomProb this v i))
        as [(i0 & Hi0 & HNaN)|Hsame].
      * intros i _. apply loglik_untested_or_NaN.
      * intros i _. rewrite (all_NaN_get _ i); [apply ngt_NaN_l|].
        apply normalize_softmax. left. exists i0. split; [exact Hi0 | left; exact HNaN].
      * rewrite (fill_array_ext _ _ _ Hsame), Hn. intros i _. apply Hmax.
Qed.

Lemma predict_agrees_with_predictProbs_witness :
  predicts_most_probable (Multinomial.classes spec_fit)
    (Multinomial.predictOne spec_fit) (Multinomial.predictProbs spec_fit) [Fin 2; Fin 0].
Proof.
  apply (proj2 predict_agrees_with_predictProbs spec_fit [Fin 2; Fin 0]).
  - rewrite spec_fit_classes. discriminate.
  - reflexivity.
Defined.

(** ** Degenerate parameters and short observations *)

Lemma nadd_NaN_l (x : num) : nadd NaN x = NaN.
Proof. reflexivity. Qed.

Lemma nadd_finite_inv (x y : num) :
  is_finite (nadd x y) = true -> is_finite x = true /\ is_finite y = true.
Proof. destruct x, y; simpl; intros H; try discriminate; split; reflexivity. Qed.

Lemma accumulate_finite_inv (f : nat -> num) (k : nat) (init : num) :
  is_finite (for_loop k (fun j res => nadd res (f j)) init) = true ->
  forall j, j < k -> is_finite (f j) = true.
Proof.
  induction k as [|k IH]; intros H j Hj; [lia|].
  rewrite for_loop_S in H. apply nadd_finite_inv in H as [Hres Hk].
  destruct (decide (j = k)) as [->|Hne]; [exact Hk|]. apply IH; [exact Hres | lia].
Qed.

Lemma accumulate_NaN (f : nat -> num) (k : nat) (init : num) (j : nat) :
  j < k -> f j = NaN -> for_loop k (fun j res => nadd res (f j)) init = NaN.
Proof.
  induction k as [|k IH]; intros Hj Hf; [lia|].
  rewrite for_loop_S. destruct (decide (j = k)) as [->|Hne].
  - rewrite Hf. apply nadd_NaN_r.
  - rewrite IH by (lia || exact Hf). reflexivity.
Qed.

Lemma ndiv_zero_not_finite (x : num) : is_finite (ndiv x (Fin 0)) = false.
Proof.
  destruct x as [| | |a]; simpl; try reflexivity.
  - destruct (decide (0 < 0)%R); reflexivity.
  - destruct (decide (0 < 0)%R); reflexivity.
  - destruct (decide (0%R = 0%R)) as [_|H]; [|congruence].
    unfold Rsgn. destruct (decide (0 < a)%R); [reflexivity|].
    destruct (decide (a < 0)%R); reflexivity.
Qed.

Lemma ndiv_NaN_r (x : num) : ndiv x NaN = NaN.
Proof. destruct x; reflexivity. Qed.

Lemma nsub_not_finite_r (x y : num) : is_finite y = false -> is_finite (nsub x y) = false.
Proof. destruct x, y; simpl; intros H; try discriminate; reflexivity. Qed.

Lemma gauss_term_degenerate (xj m s : num) :
  s = Fin 0 \/ s = NaN -> is_finite (Gaussian.gauss_term xj m s) = false.
Proof.
  intros [-> | ->]; unfold Gaussian.gauss_term; apply nsub_not_finite_r.
  - apply ndiv_zero_not_finite.
  - rewrite ndiv_NaN_r. reflexivity.
Qed.

(** X14.  In a Gaussian model, a standard deviation [sigma[ j ][ i ]]
    that is 0 (a feature constant within the class) or NaN makes the
    log-likelihood of class [i] infinite or NaN for every observation
    whatsoever: no observation gets a finite score for that class. *)
Theorem zero_sigma_never_finite (this : Gaussian.model) (x : list num) (i j : nat) :
  j < Gaussian.p this ->
  mat_get (Gaussian.sigma this) j i = Fin 0 \/ mat_get (Gaussian.sigma this) j i = NaN ->
  is_finite (Gaussian.calcGaussianProb this x i) = false.
Proof.
  intros Hj Hs.
  destruct (is_finite (Gaussian.calcGaussianProb this x i)) eqn:Hfin; [|reflexivity].
  unfold Gaussian.calcGaussianProb in Hfin.
  pose proof (accumulate_finite_inv
                (fun j => Gaussian.gauss_term (vec_get x j)
                            (mat_get (Gaussian.mu this) j i)
                            (mat_get (Gaussian.sigma this) j i))
                _ _ Hfin j Hj) as Hterm.
  simpl in Hterm. rewrite gauss_term_degenerate in Hterm by exact Hs. discriminate.
Qed.

Lemma zero_sigma_never_finite_witness :
  is_finite (Gaussian.calcGaussianProb constant_fit [Fin 5] 0) = false.
Proof.
  apply (zero_sigma_never_finite constant_fit [Fin 5] 0 0).
  - simpl. lia.
  - left. apply constant_fit_parameters.
Defined.

Lemma truthy_NaN_or_zero (x : num) : x = NaN \/ x = Fin 0 -> truthy x = false.
Proof.
  intros [-> | ->]; [reflexivity|]. simpl.
  apply bool_decide_eq_false. intros H. apply H. reflexivity.
Qed.

Lemma vec_get_resize (p : nat) (v : list num) (j : nat) :
  j < p ->
  vec_get (resize p (Fin 0) v) j = vec_get v j \/
  (vec_get v j = NaN /\ vec_get (resize p (Fin 0) v) j = Fin 0).
Proof.
  intros Hj. unfold vec_get. destruct (decide (j < length v)) as [Hl|Hl].
  - left. rewrite lookup_resize by assumption. reflexivity.
  - right. rewrite lookup_resize_new, lookup_ge_None_2 by lia. split; reflexivity.
Qed.

Lemma all_NaN_list (k : nat) (L : nat -> num) :
  (forall i, i < k -> L i = NaN) -> fill_array k L = replicate k NaN.
Proof.
  intros HL. rewrite fill_array_map.
  rewrite (map_ext_in _ (fun _ => NaN))
    by (intros i Hi; apply in_seq in Hi; apply HL; lia).
  generalize 0. induction k as [|k IH]; intros s; [reflexivity|].
  simpl. f_equal. apply IH. intros i Hi. apply HL. lia.
Qed.

Lemma normalize_all_NaN (k : nat) : normalize (replicate k NaN) = replicate k NaN.
Proof.
  rewrite normalize_formula. generalize (log_normalizer (replicate k NaN)). intros d.
  induction k as [|k IH]; [reflexivity|]. simpl. f_equal. exact IH.
Qed.

(** X15.  The multinomial [predictOne] reads exactly [p] features: it
    ignores what an observation holds past them and takes a missing
    feature for a zero, so it returns what it returns for the
    observation cut or zero-padded to length [p].  [predictProbs], which
    multiplies without testing, instead returns NaN for every class as
    soon as the observation has fewer than [p] features. *)
Theorem multinomial_observation_length (this : Multinomial.model) (v : list num) :
  Multinomial.predictOne this v
  = Multinomial.predictOne this (resize (Multinomial.p this) (Fin 0) v) /\
  (length v < Multinomial.p this ->
   Multinomial.predictProbs this (InVec v)
   = QOne (replicate (Multinomial.nclass this) NaN)).
Proof.
  split.
  - unfold Multinomial.predictOne. f_equal. apply fill_array_ext. intros i _.
    unfold Multinomial.loglik. apply for_loop_ext. intros j res Hj.
    destruct (vec_get_resize (Multinomial.p this) v j Hj) as [->|[Hv Hr]];
      [reflexivity|].
    rewrite Hv, Hr.
    rewrite (truthy_NaN_or_zero NaN), (truthy_NaN_or_zero (Fin 0)) by auto.
    reflexivity.
  - intros Hlen. unfold Multinomial.predictProbs. simpl. f_equal.
    rewrite all_NaN_list; [apply normalize_all_NaN|].
    intros i _. unfold Multinomial.loglik_untested.
    apply (accumulate_NaN
             (fun j => nmul (vec_get v j) (mat_get (Multinomial.cprob this) j i))
             _ _ (length v) Hlen).
    unfold vec_get. rewrite lookup_ge_None_2 by lia. reflexivity.
Qed.

Lemma multinomial_observation_length_witness :
  Multinomial.predictProbs spec_fit (InVec [Fin 2])
  = QOne (replicate (Multinomial.nclass spec_fit) NaN).
Proof.
  apply (proj2 (multinomial_observation_length spec_fit [Fin 2])).
  simpl. lia.
Defined.

Lemma gauss_term_NaN (m s : num) : Gaussian.gauss_term NaN m s = NaN.
Proof.
  unfold Gaussian.gauss_term. simpl.
  destruct (nmul _ s); reflexivity.
Qed.

Lemma Gaussian_short_loglik (this : Gaussian.model) (v : list num) (i : nat) :
  length v < Gaussian.p this -> Gaussian.calcGaussianProb this v i = NaN.
Proof.
  intros Hlen. unfold Gaussian.calcGaussianProb.
  apply (accumulate_NaN
           (fun j => Gaussian.gauss_term (vec_get v j) (mat_get (Gaussian.mu this) j i)
                       (mat_get (Gaussian.sigma this) j i))
           _ _ (length v) Hlen).
  unfold vec_get. rewrite lookup_ge_None_2 by lia. apply gauss_term_NaN.
Qed.

(** X16.  For a Gaussian model, an observation with fewer than [p]
    features has the log-likelihood NaN for every class: [predictOne]
    then returns the first class, whatever the observation and the
    parameters are, and [predictProbs] returns NaN for every class. *)
Theorem gaussian_short_observation (this : Gaussian.model) (v : list num) :
  length v < Gaussian.p this ->
  (forall i, Gaussian.calcGaussianProb this v i = NaN) /\
  Gaussian.predictOne this v = Gaussian.classes this !! 0 /\
  Gaussian.predictProbs this (InVec v) = QOne (replicate (Gaussian.nclass this) NaN).
Proof.
  intros Hlen. split; [intros i; apply Gaussian_short_loglik, Hlen|]. split.
  - destruct (Gaussian.classes this) as [|c cl] eqn:Hcl.
    + unfold Gaussian.predictOne. rewrite Hcl. reflexivity.
    + unfold Gaussian.predictOne.
      destruct (argmax_scan_choice (Gaussian.classes this)
                  (length (Gaussian.classes this))
                  (fill_array (length (Gaussian.classes this))
                     (Gaussian.calcGaussianProb this v)))
        as (k & (Hk & _ & H0 & _) & Hres).
      * rewrite Hcl. simpl. lia.
      * rewrite Hres, H0, Hcl; [reflexivity|].
        rewrite fill_array_get by (rewrite Hcl; simpl; lia).
        apply Gaussian_short_loglik, Hlen.
  - unfold Gaussian.predictProbs. simpl. f_equal.
    rewrite all_NaN_list; [apply normalize_all_NaN|].
    intros i _. apply Gaussian_short_loglik, Hlen.
Qed.

Lemma gaussian_short_observation_witness :
  (forall i, Gaussian.calcGaussianProb constant_fit [] i = NaN) /\
  Gaussian.predictOne constant_fit [] = Gaussian.classes constant_fit !! 0 /\
  Gaussian.predictProbs constant_fit (InVec [])
  = QOne (replicate (Gaussian.nclass constant_fit) NaN).
Proof.
  apply (gaussian_short_observation constant_fit []).
  simpl. lia.
Defined.

Lemma accumulate_zeros (f : nat -> num) (k : nat) (init : num) :
  (forall j, j < k -> f j = Fin 0) ->
  for_loop k (fun j res => nadd res (f j)) init = init.
Proof.
  induction k as [|k IH]; intros Hf; [reflexivity|].
  rewrite for_loop_S, IH, Hf by (intros; try apply Hf; lia). apply nadd_0_r.
Qed.

(** X17.  An observation whose first [p] features are all zero (or
    missing) has, for the multinomial [predictOne] and [predict], the
    prior of each class as its log-likelihood, whatever [cprob] holds,
    -Infinity and NaN included: a zero feature never touches the
    parameter it would multiply. *)
Theorem zero_features_leave_prior (this : Multinomial.model) (v : list num) (i : nat) :
  (forall j, j < Multinomial.p this -> vec_get v j = Fin 0 \/ vec_get v j = NaN) ->
  Multinomial.calcMultinomProb this v i
  = prop_get (Multinomial.prior this) (Multinomial.classes this !! i).
Proof.
  intros Hv. unfold Multinomial.calcMultinomProb, Multinomial.loglik.
  apply (accumulate_zeros
           (fun j => if truthy (vec_get v j)
                     then nmul (vec_get v j) (mat_get (Multinomial.cprob this) j i)
                     else Fin 0)).
  intros j Hj. rewrite truthy_NaN_or_zero; [reflexivity|].
  destruct (Hv j Hj); auto.
Qed.

Lemma zero_features_leave_prior_witness :
  Multinomial.calcMultinomProb degenerate_fit [Fin 0; Fin 0] 0
  = prop_get (Multinomial.prior degenerate_fit) (Multinomial.classes degenerate_fit !! 0).
Proof.
  apply (zero_features_leave_prior degenerate_fit [Fin 0; Fin 0] 0).
  intros j Hj. change (Multinomial.p degenerate_fit) with 2 in Hj.
  destruct j as [|[|j]]; [left; reflexivity | left; reflexivity | lia].
Defined.
